(** * universal_versions.version_specifier: a shallow embedding

    The development follows [src/universal_versions/version_specifier.py]:
    the helpers [find_pessimistic_upper_bound] and
    [normalized_pessimistic_ranges], and the class [VersionSpecifier] with
    its two constructors, [__str__] and [__contains__].

    Python values are modelled as the code has them: [str] as [string]
    (characters of code below 256), the unbounded non-negative [int]s of a
    version as [N], [None] as a constructor of [object], a raised exception
    as the [Raise] branch of [result]. *)

From Stdlib Require Import String Ascii List NArith Bool Arith Lia.
From Stdlib Require Import DecimalString.
From Stdlib Require Import Permutation.
Import ListNotations.
Open Scope list_scope.
Open Scope string_scope.

(** ** Python exceptions and results *)

(** The exception classes that the module and the libraries it calls raise.
    The source signals each of its own failures with [ValueError]; indexing
    a tuple out of range raises [IndexError]. *)
Inductive exn : Type :=
| ValueError (msg : string)
| IndexError (msg : string)
| KeyError (msg : string)
| TypeError (msg : string).

Inductive result (A : Type) : Type :=
| Ok (a : A)
| Raise (e : exn).

Arguments Ok {A} a.
Arguments Raise {A} e.

Definition bind {A B : Type} (r : result A) (k : A -> result B) : result B :=
  match r with
  | Ok a => k a
  | Raise e => Raise e
  end.

Notation "x <- r ;; k" := (bind r (fun x => k))
  (at level 61, r at next level, right associativity).
Notation "' p <- r ;; k" := (bind r (fun x => let p := x in k))
  (at level 61, p pattern, r at next level, right associativity).

(** [raises_ValueError r]: the call ended in a [ValueError]. *)
Definition raises_ValueError {A : Type} (r : result A) : Prop :=
  exists msg, r = Raise (ValueError msg).

(** [[f(x) for x in xs]]: the elements are computed left to right and the
    first exception ends the comprehension. *)
Fixpoint list_comprehension {A B : Type} (f : A -> result B) (xs : list A)
  : result (list B) :=
  match xs with
  | [] => Ok []
  | x :: xs' =>
      y <- f x ;;
      ys <- list_comprehension f xs' ;;
      Ok (y :: ys)
  end.

(** The builtin [all] on a list of booleans. *)
Definition all (bs : list bool) : bool := forallb (fun b => b) bs.

(** ** Python objects held in a tuple, and their truth value *)

Inductive object : Type :=
| PyInt (n : N)
| PyStr (s : string)
| PyNone.

(** [bool(x)]: [0], [''] and [None] are false. *)
Definition truthy (x : object) : bool :=
  match x with
  | PyInt n => negb (N.eqb n 0)
  | PyStr s => negb (String.eqb s "")
  | PyNone => false
  end.

(** ** The [str] methods the module uses *)

(** [s.startswith(p)]. *)
Fixpoint startswith (p s : string) : bool :=
  match p, s with
  | EmptyString, _ => true
  | String _ _, EmptyString => false
  | String a p', String b s' => Ascii.eqb a b && startswith p' s'
  end.

(** [s[n:]]. *)
Fixpoint str_drop (n : nat) (s : string) : string :=
  match n, s with
  | O, _ => s
  | S _, EmptyString => EmptyString
  | S n', String _ s' => str_drop n' s'
  end.

(** [sub in s]: [sub] occurs in [s]. *)
Fixpoint str_in (sub s : string) : bool :=
  if startswith sub s then true
  else match s with
       | EmptyString => false
       | String _ s' => str_in sub s'
       end.

(** The first occurrence of [sep] in [s]: the text before it and the text
    after it. *)
Fixpoint find_sep (sep s : string) : option (string * string) :=
  if startswith sep s then Some (EmptyString, str_drop (String.length sep) s)
  else match s with
       | EmptyString => None
       | String c s' =>
           match find_sep sep s' with
           | Some (before, after) => Some (String c before, after)
           | None => None
           end
       end.

(** [s.partition(sep)]: split at the first [sep]; the whole string and two
    empty strings when there is none. *)
Definition str_partition (sep s : string) : string * string * string :=
  match find_sep sep s with
  | Some (before, after) => (before, sep, after)
  | None => (s, EmptyString, EmptyString)
  end.

(** The text before the first [":"] of a specifier string, and the text
    after it: the first and the last of the three parts of
    [partition(":")]. *)
Definition scheme_of (version_spec_string : string) : string :=
  fst (fst (str_partition ":" version_spec_string)).

Definition remainder_of (version_spec_string : string) : string :=
  snd (str_partition ":" version_spec_string).

(** Put a character in front of the first piece. *)
Definition push_head (c : ascii) (pieces : list string) : list string :=
  match pieces with
  | [] => [String c EmptyString]
  | p :: ps => String c p :: ps
  end.

(** [s.split(sep)] for a non-empty [sep], scanning left to right; after a
    match the rest of the separator ([skip] characters) is stepped over, so
    occurrences do not overlap. *)
Fixpoint split_go (sep : string) (skip : nat) (s : string) : list string :=
  match s with
  | EmptyString => [EmptyString]
  | String c s' =>
      match skip with
      | S k => split_go sep k s'
      | O =>
          if startswith sep s
          then EmptyString :: split_go sep (String.length sep - 1) s'
          else push_head c (split_go sep 0 s')
      end
  end.

Definition str_split (sep s : string) : list string := split_go sep 0 s.

(** The items of [sep.join(items)], each a string ([Some]) or another
    object ([None]); the first that is no string is refused, with its
    position. *)
Fixpoint join_items (class_name : string) (position : N)
    (items : list (option string)) : result (list string) :=
  match items with
  | [] => Ok []
  | None :: _ =>
      Raise (TypeError
        ("sequence item " ++ NilZero.string_of_uint (N.to_uint position)
         ++ ": expected str instance, " ++ class_name ++ " found"))
  | Some text :: items' =>
      texts <- join_items class_name (position + 1) items' ;;
      Ok (text :: texts)
  end.

(** [sep.join(items)]. *)
Definition str_join (sep class_name : string) (items : list (option string))
  : result string :=
  texts <- join_items class_name 0 items ;;
  Ok (String.concat sep texts).

(** The number of places of [s] at which [sub] starts. *)
Fixpoint occurrences (sub s : string) : nat :=
  match s with
  | EmptyString => 0
  | String _ s' =>
      (if startswith sub s then 1 else 0) + occurrences sub s'
  end.

(** ** The [semver] library: [semver.Version]

    The module imports [Version] from the third-party package [semver].
    Its parser, tuple view, bump methods, string form and ordering are
    modelled after that package. *)

Module Semver.

Record Version : Type := mkVersion {
  major : N;
  minor : N;
  patch : N;
  prerelease : option string;
  build : option string
}.

Definition is_digit (c : ascii) : bool :=
  Nat.leb 48 (nat_of_ascii c) && Nat.leb (nat_of_ascii c) 57.

Definition is_alpha (c : ascii) : bool :=
  (Nat.leb 65 (nat_of_ascii c) && Nat.leb (nat_of_ascii c) 90)
  || (Nat.leb 97 (nat_of_ascii c) && Nat.leb (nat_of_ascii c) 122).

(** The character class [[0-9a-zA-Z-]]. *)
Definition is_ident_char (c : ascii) : bool :=
  is_digit c || is_alpha c || Ascii.eqb c "-".

Fixpoint str_all (p : ascii -> bool) (s : string) : bool :=
  match s with
  | EmptyString => true
  | String c s' => p c && str_all p s'
  end.

(** [int(s)] on a string of decimal digits. *)
Fixpoint int_of_digits (acc : N) (s : string) : N :=
  match s with
  | EmptyString => acc
  | String c s' => int_of_digits (10 * acc + (N_of_ascii c - 48)) s'
  end.

Definition int (s : string) : N := int_of_digits 0 s.

(** [str(n)] and the [{n:d}] of an f-string. *)
Definition str_of_int (n : N) : string := NilZero.string_of_uint (N.to_uint n).

(** [0|[1-9]\d*]: a numeric identifier without leading zeros. *)
Definition is_numeric_identifier (s : string) : bool :=
  match s with
  | EmptyString => false
  | String c s' =>
      str_all is_digit s && (negb (Ascii.eqb c "0") || String.eqb s' "")
  end.

(** [0|[1-9]\d*|\d*[a-zA-Z-][0-9a-zA-Z-]*]: a pre-release identifier. *)
Definition is_prerelease_identifier (s : string) : bool :=
  negb (String.eqb s "") && str_all is_ident_char s
  && (negb (str_all is_digit s) || is_numeric_identifier s).

(** [[0-9a-zA-Z-]+]: a build identifier. *)
Definition is_build_identifier (s : string) : bool :=
  negb (String.eqb s "") && str_all is_ident_char s.

(** Drop one final newline: [$] also matches just before it. *)
Fixpoint strip_final_newline (s : string) : string :=
  match s with
  | EmptyString => EmptyString
  | String c s' =>
      if Ascii.eqb c "010" && String.eqb s' "" then EmptyString
      else String c (strip_final_newline s')
  end.

(** The groups of the version regex: the core [major.minor.patch], then
    [-prerelease] up to the first [+], then [+build]. *)
Definition match_regex (version : string)
  : option (string * string * string * option string * option string) :=
  let text := strip_final_newline version in
  let '(head, build_part) :=
    match find_sep "+" text with
    | Some (h, b) => (h, Some b)
    | None => (text, None)
    end in
  let '(core, prerelease_part) :=
    match find_sep "-" head with
    | Some (c, p) => (c, Some p)
    | None => (head, None)
    end in
  match str_split "." core with
  | [ma; mi; pa] =>
      if is_numeric_identifier ma && is_numeric_identifier mi
         && is_numeric_identifier pa
         && match prerelease_part with
            | Some p => forallb is_prerelease_identifier (str_split "." p)
            | None => true
            end
         && match build_part with
            | Some b => forallb is_build_identifier (str_split "." b)
            | None => true
            end
      then Some (ma, mi, pa, prerelease_part, build_part)
      else None
  | _ => None
  end.

(** [Version.parse(version)]. *)
Definition parse (version : string) : result Version :=
  match match_regex version with
  | None => Raise (ValueError (version ++ " is not valid SemVer string"))
  | Some (ma, mi, pa, pre, bld) => Ok (mkVersion (int ma) (int mi) (int pa) pre bld)
  end.

Definition of_option (o : option string) : object :=
  match o with
  | Some s => PyStr s
  | None => PyNone
  end.

(** [version.to_tuple()]: (major, minor, patch, prerelease, build). *)
Definition to_tuple (v : Version) : list object :=
  [PyInt (major v); PyInt (minor v); PyInt (patch v);
   of_option (prerelease v); of_option (build v)].

(** The span of the last run of digits of [s], found from the right:
    the text before it, the digits, the text after it. *)
Fixpoint last_number_rev (after : list ascii) (r : list ascii)
  : option (list ascii * list ascii * list ascii) :=
  match r with
  | [] => None
  | c :: r' =>
      if is_digit c then
        let fix digits (acc : list ascii) (r : list ascii) :=
          match r with
          | d :: r'' => if is_digit d then digits (d :: acc) r'' else (acc, r)
          | [] => (acc, r)
          end in
        let '(ds, before_rev) := digits [c] r' in
        Some (rev before_rev, ds, after)
      else last_number_rev (c :: after) r'
  end.

(** [Version._increment_string]: add one to the last number of the string,
    keeping its width when it has leading zeros. *)
Definition increment_string (s : string) : string :=
  match last_number_rev [] (rev (list_ascii_of_string s)) with
  | None => s
  | Some (before, ds, after) =>
      let next_ := str_of_int (int (string_of_list_ascii ds) + 1) in
      let start := List.length before in
      let end_ := start + List.length ds in
      let keep := Nat.max (end_ - String.length next_) start in
      String.substring 0 keep s ++ next_ ++ string_of_list_ascii after
  end.

Definition bump_major (v : Version) : Version :=
  mkVersion (major v + 1) 0 0 None None.

Definition bump_minor (v : Version) : Version :=
  mkVersion (major v) (minor v + 1) 0 None None.

Definition bump_patch (v : Version) : Version :=
  mkVersion (major v) (minor v) (patch v + 1) None None.

(** [bump_prerelease(token="rc")]. *)
Definition bump_prerelease (v : Version) : Version :=
  let pre := match prerelease v with
             | Some p => p
             | None => "rc.0"
             end in
  mkVersion (major v) (minor v) (patch v) (Some (increment_string pre)) None.

(** [bump_build(token="build")]: the pre-release part is kept. *)
Definition bump_build (v : Version) : Version :=
  let b := match build v with
           | Some b => b
           | None => "build.0"
           end in
  mkVersion (major v) (minor v) (patch v) (prerelease v)
            (Some (increment_string b)).

(** [str(version)]. *)
Definition to_str (v : Version) : string :=
  str_of_int (major v) ++ "." ++ str_of_int (minor v) ++ "."
  ++ str_of_int (patch v)
  ++ match prerelease v with
     | Some p => if String.eqb p "" then "" else "-" ++ p
     | None => ""
     end
  ++ match build v with
     | Some b => if String.eqb b "" then "" else "+" ++ b
     | None => ""
     end.

(** One part of a pre-release string: an [int] when it is all digits. *)
Definition prerelease_part (x : string) : object :=
  if negb (String.eqb x "") && str_all is_digit x then PyInt (int x)
  else PyStr x.

Definition cmp_prerelease_tag (a b : object) : comparison :=
  match a, b with
  | PyInt x, PyInt y => N.compare x y
  | PyInt _, _ => Lt
  | _, PyInt _ => Gt
  | PyStr x, PyStr y => String.compare x y
  | _, _ => Eq
  end.

Fixpoint cmp_parts (xs ys : list object) : comparison :=
  match xs, ys with
  | x :: xs', y :: ys' =>
      match cmp_prerelease_tag x y with
      | Eq => cmp_parts xs' ys'
      | c => c
      end
  | _, _ => Eq
  end.

(** [_nat_cmp]: compare two pre-release strings part by part; when every
    paired part is equal the lengths of the strings decide. *)
Definition nat_cmp (a b : option string) : comparison :=
  let a := match a with Some s => s | None => "" end in
  let b := match b with Some s => s | None => "" end in
  match cmp_parts (map prerelease_part (str_split "." a))
                  (map prerelease_part (str_split "." b)) with
  | Eq => Nat.compare (String.length a) (String.length b)
  | c => c
  end.

Definition is_empty (o : option string) : bool :=
  match o with
  | Some s => String.eqb s ""
  | None => true
  end.

(** [version.compare(other)]: the build metadata takes no part. *)
Definition compare (v w : Version) : comparison :=
  match N.compare (major v) (major w) with
  | Eq =>
      match N.compare (minor v) (minor w) with
      | Eq =>
          match N.compare (patch v) (patch w) with
          | Eq =>
              match nat_cmp (prerelease v) (prerelease w) with
              | Eq => Eq
              | c =>
                  if is_empty (prerelease v) then Gt
                  else if is_empty (prerelease w) then Lt
                  else c
              end
          | c => c
          end
      | c => c
      end
  | c => c
  end.

End Semver.

(** ** [universal_versions.utils] *)

(** The characters [str.isspace] accepts below code 256. *)
Definition is_space (c : ascii) : bool :=
  let n := nat_of_ascii c in
  (Nat.leb 9 n && Nat.leb n 13) || (Nat.leb 28 n && Nat.leb n 32)
  || Nat.eqb n 133 || Nat.eqb n 160.

(** Modelled from the spec: [remove_spaces] of [universal_versions.utils]
    is not among the sources; section 4.1 says that whitespace is
    insignificant and that all of it is stripped before splitting. *)
Fixpoint remove_spaces (s : string) : string :=
  match s with
  | EmptyString => EmptyString
  | String c s' =>
      if is_space c then remove_spaces s' else String c (remove_spaces s')
  end.

(** ** [universal_versions.version_range] and [universal_versions.versions]

    The class [VersionRange] and the function [parse_version] are imported
    by the module and are not among the sources.  They are taken as an
    interface: what the module calls, with the results Python allows
    (a value or an exception). *)
Class VersionBackend : Type := {
  (** the version objects that [parse_version] returns *)
  BaseVersion : Type;
  (** the instances of [VersionRange] *)
  VersionRange : Type;
  (** [parse_version(version)] on a scheme-prefixed version string *)
  parse_version : string -> result BaseVersion;
  (** [VersionRange(version_range_string, scheme)] *)
  VersionRange_init : string -> string -> result VersionRange;
  (** [version in version_range] *)
  VersionRange_contains : VersionRange -> BaseVersion -> result bool;
  (** the canonical text of a range when the instances of [VersionRange]
      are strings, the one kind of item that [",".join] accepts *)
  VersionRange_as_str : VersionRange -> option string
}.

(** ** [universal_versions.version_specifier] *)

(** The dictionary [index_method] of [find_pessimistic_upper_bound]; the
    bound method of the chosen entry is called, the others are not. *)
Definition index_method (version_obj : Semver.Version) (index : nat)
  : result Semver.Version :=
  match index with
  | 0 => Ok (Semver.bump_build version_obj)
  | 1 => Ok (Semver.bump_minor version_obj)
  | 2 => Ok (Semver.bump_patch version_obj)
  | 3 => Ok (Semver.bump_prerelease version_obj)
  | _ => Raise (KeyError (Semver.str_of_int (N.of_nat index)))
  end.

(** [version_tuple[i]]. *)
Definition tuple_getitem (t : list object) (i : nat) : result object :=
  match nth_error t i with
  | Some x => Ok x
  | None => Raise (IndexError "tuple index out of range")
  end.

(** The loop [for index, value in enumerate(version_tuple)], entered at
    [index] with [remaining] still to visit.  [Ok None] is the function
    falling off its end. *)
Fixpoint pessimistic_scan (version_string : string)
    (version_obj : Semver.Version) (version_tuple : list object)
    (index : nat) (remaining : list object) : result (option string) :=
  match remaining with
  | [] => Ok None
  | _ :: remaining' =>
      if Nat.ltb 3 index then
        Raise (ValueError
          ("No pessismistic upper bound exists for the provided version "
           ++ version_string))
      else
        ahead <- tuple_getitem version_tuple (index + 2) ;;
        if negb (truthy ahead) then
          upper_bound_version_object <- index_method version_obj index ;;
          Ok (Some (Semver.to_str upper_bound_version_object))
        else
          pessimistic_scan version_string version_obj version_tuple
                           (S index) remaining'
  end.

Definition find_pessimistic_upper_bound (version_string : string)
  : result (option string) :=
  version_obj <- Semver.parse version_string ;;
  let version_tuple := Semver.to_tuple version_obj in
  pessimistic_scan version_string version_obj version_tuple 0 version_tuple.

(** [f"{x}"] of a value that is a string or [None]. *)
Definition format_option (x : option string) : string :=
  match x with
  | Some s => s
  | None => "None"
  end.

Record VersionSpecifier `{VersionBackend} : Type := mkVersionSpecifier {
  scheme : string;
  ranges : list VersionRange
}.

(** What [__contains__] may be given. *)
Inductive version_arg `{VersionBackend} : Type :=
| version_str (s : string)
| version_obj (v : BaseVersion).

Section VersionSpecifier.

Context `{B : VersionBackend}.

(** The call of [remove_spaces] on the first line drops its result, so the
    string is split as it came. *)
Definition normalized_pessimistic_ranges
    (pessimistic_version_range_string : string)
  : result (VersionRange * VersionRange) :=
  let _ := remove_spaces pessimistic_version_range_string in
  match str_split "~>" pessimistic_version_range_string with
  | [_; version] =>
      let lower_bound := version in
      upper_bound <- find_pessimistic_upper_bound version ;;
      lower <- VersionRange_init (">=" ++ lower_bound) "semver" ;;
      upper <- VersionRange_init ("<" ++ format_option upper_bound) "semver" ;;
      Ok (lower, upper)
  | _ =>
      Raise (ValueError
        ("The version range string " ++ pessimistic_version_range_string
         ++ " is not valid"))
  end.

(** The ranges one expression adds to the list: [extend] with the pair of
    a pessimistic expression, [append] otherwise. *)
Definition ranges_of_expression (scheme version_range : string)
  : result (list VersionRange) :=
  if String.eqb scheme "semver" && str_in "~>" version_range then
    '(lower, upper) <- normalized_pessimistic_ranges version_range ;;
    Ok [lower; upper]
  else
    range <- VersionRange_init version_range scheme ;;
    Ok [range].

(** The loop [for version_range in version_ranges], with the list [ranges]
    built so far. *)
Fixpoint collect_ranges (scheme : string) (version_ranges : list string)
    (ranges : list VersionRange) : result (list VersionRange) :=
  match version_ranges with
  | [] => Ok ranges
  | version_range :: rest =>
      added <- ranges_of_expression scheme version_range ;;
      collect_ranges scheme rest (ranges ++ added)%list
  end.

Definition from_scheme_version_spec_string (scheme value : string)
  : result VersionSpecifier :=
  let value := remove_spaces value in
  let version_ranges := str_split "," value in
  ranges <- collect_ranges scheme version_ranges [] ;;
  Ok (mkVersionSpecifier _ scheme ranges).

Definition from_version_spec_string (version_spec_string : string)
  : result VersionSpecifier :=
  let '(scheme, _, version_range_expressions) :=
    str_partition ":" version_spec_string in
  if String.eqb scheme "" then
    Raise (ValueError (version_spec_string ++ " is not prefixed by scheme"))
  else if String.eqb version_range_expressions "" then
    Raise (ValueError (version_spec_string ++ " contains no version range"))
  else from_scheme_version_spec_string scheme version_range_expressions.

(** [VersionSpecifier.__str__]. *)
Definition __str__ (self : VersionSpecifier) : result string :=
  ranges <- str_join "," "VersionRange"
              (map VersionRange_as_str (ranges self)) ;;
  Ok (scheme self ++ ":" ++ ranges).

(** [if isinstance(version, str): version = parse_version(version)]. *)
Definition as_version (version : version_arg) : result BaseVersion :=
  match version with
  | version_str s => parse_version s
  | version_obj v => Ok v
  end.

(** [VersionSpecifier.__contains__]. *)
Definition __contains__ (self : VersionSpecifier) (version : version_arg)
  : result bool :=
  version <- as_version version ;;
  tests <- list_comprehension
             (fun version_range => VersionRange_contains version_range version)
             (ranges self) ;;
  Ok (all tests).

End VersionSpecifier.

(** ** A backend for the scheme [semver]

    The interface above is instantiated once, so that the module can be run
    on concrete specifiers. *)

Module SemverBackend.

(** The comparison operators of a primitive range (section 4.2). *)
Inductive operator : Type :=
| Exact | NotEqual | Less | LessEqual | Greater | GreaterEqual.

Record range : Type := mkRange {
  range_scheme : string;
  range_operator : operator;
  range_version : Semver.Version
}.

Definition operator_text (op : operator) : string :=
  match op with
  | Exact => "=="
  | NotEqual => "!="
  | Less => "<"
  | LessEqual => "<="
  | Greater => ">"
  | GreaterEqual => ">="
  end.

(** The leading operator of a range expression and the version text after
    it; no operator means an exact match. *)
Definition split_operator (text : string) : operator * string :=
  if startswith ">=" text then (GreaterEqual, str_drop 2 text)
  else if startswith "<=" text then (LessEqual, str_drop 2 text)
  else if startswith "==" text then (Exact, str_drop 2 text)
  else if startswith "!=" text then (NotEqual, str_drop 2 text)
  else if startswith "<" text then (Less, str_drop 1 text)
  else if startswith ">" text then (Greater, str_drop 1 text)
  else (Exact, text).

(** The version parser of a scheme; [semver] is the one scheme whose
    library the module imports, the others are rejected. *)
Definition parse_scheme_version (scheme text : string)
  : result Semver.Version :=
  if String.eqb scheme "semver" then Semver.parse text
  else Raise (ValueError (scheme ++ " is not a supported scheme")).

(** Modelled from the spec: the constructor of [VersionRange], which is
    not among the sources (section 4.2): the leading comparison operator,
    then the version text parsed under the scheme. *)
Definition range_init (version_range_string scheme : string) : result range :=
  let '(op, text) := split_operator (remove_spaces version_range_string) in
  v <- parse_scheme_version scheme text ;;
  Ok (mkRange scheme op v).

(** The operator's ordering test on the result of comparing the queried
    version with the bound. *)
Definition satisfies (op : operator) (c : comparison) : bool :=
  match op, c with
  | Exact, Eq => true
  | NotEqual, (Lt | Gt) => true
  | Less, Lt => true
  | LessEqual, (Lt | Eq) => true
  | Greater, Gt => true
  | GreaterEqual, (Gt | Eq) => true
  | _, _ => false
  end.

(** Modelled from the spec: the containment test of [VersionRange], which
    is not among the sources (section 4.2): the queried version is compared
    with the bound under the operator. *)
Definition range_contains (r : range) (v : Semver.Version) : result bool :=
  Ok (satisfies (range_operator r) (Semver.compare v (range_version r))).

(** The instances of [VersionRange] are objects of a class of their own,
    not strings: [",".join] finds no [str] among them. *)
Definition range_as_str (r : range) : option string := None.

(** Modelled from the spec: [parse_version], which is not among the
    sources (section 4.4): a version string, with or without the prefix
    that names its scheme. *)
Definition parse_prefixed_version (version : string)
  : result Semver.Version :=
  match find_sep ":" version with
  | Some (scheme, text) => parse_scheme_version scheme text
  | None => Semver.parse version
  end.

#[export] Instance backend : VersionBackend := {
  BaseVersion := Semver.Version;
  VersionRange := range;
  parse_version := parse_prefixed_version;
  VersionRange_init := range_init;
  VersionRange_contains := range_contains;
  VersionRange_as_str := range_as_str
}.

End SemverBackend.

(** ** A backend whose versions and ranges carry their scheme

    A second instance of the interface, for the cases the first does not
    show: a scheme other than [semver] and a containment test that
    raises.  Every scheme is read
    with the syntax of [semver]; a version is not compared with a range of
    another scheme. *)

Module TaggedBackend.

Record version : Type := mkTagged {
  version_scheme : string;
  version_value : Semver.Version
}.

Definition tagged_init (version_range_string scheme : string)
  : result SemverBackend.range :=
  let '(op, text) :=
    SemverBackend.split_operator (remove_spaces version_range_string) in
  v <- Semver.parse text ;;
  Ok (SemverBackend.mkRange scheme op v).

Definition tagged_parse (text : string) : result version :=
  match find_sep ":" text with
  | Some (scheme, rest) =>
      v <- Semver.parse rest ;;
      Ok (mkTagged scheme v)
  | None => Raise (ValueError (text ++ " is not prefixed by scheme"))
  end.

Definition tagged_contains (r : SemverBackend.range) (v : version)
  : result bool :=
  if String.eqb (SemverBackend.range_scheme r) (version_scheme v) then
    SemverBackend.range_contains r (version_value v)
  else
    Raise (ValueError
      ("cannot compare " ++ version_scheme v ++ " with "
       ++ SemverBackend.range_scheme r)).

Definition backend : VersionBackend := {|
  BaseVersion := version;
  VersionRange := SemverBackend.range;
  parse_version := tagged_parse;
  VersionRange_init := tagged_init;
  VersionRange_contains := tagged_contains;
  VersionRange_as_str := fun _ => None
|}.

End TaggedBackend.

(** The characters of a version string that [Version.parse] accepts:
    those of the identifiers, the dot and the plus sign; one newline may
    follow them. *)
Definition semver_char (c : ascii) : bool :=
  Semver.is_ident_char c || Ascii.eqb c "." || Ascii.eqb c "+".

Definition semver_char_or_newline (c : ascii) : bool :=
  semver_char c || Ascii.eqb c "010".

(** * Properties *)

(** ** Results *)

Lemma bind_Ok {A B : Type} (r : result A) (k : A -> result B) (b : B) :
  bind r k = Ok b <-> exists a, r = Ok a /\ k a = Ok b.
Proof.
  destruct r as [a|e]; simpl; split.
  - intros Hk. exists a. split; [reflexivity | exact Hk].
  - intros [a' [Ha Hk]]. inversion Ha. subst. exact Hk.
  - discriminate.
  - intros [a' [Ha _]]. discriminate.
Qed.

Lemma list_comprehension_Ok {A B : Type} (f : A -> result B) (xs : list A)
    (ys : list B) :
  list_comprehension f xs = Ok ys <-> Forall2 (fun x y => f x = Ok y) xs ys.
Proof.
  revert ys. induction xs as [|x xs IH]; intros ys; simpl.
  - split.
    + intros Heq. inversion Heq. constructor.
    + intros HF. inversion HF. reflexivity.
  - split.
    + intros Heq. apply bind_Ok in Heq. destruct Heq as [y [Hy Heq]].
      apply bind_Ok in Heq. destruct Heq as [ys' [Hys Heq]].
      inversion Heq. subst. constructor; [exact Hy | apply IH; exact Hys].
    + intros HF. inversion HF as [|x' y xs' ys' Hy HF']. subst.
      rewrite Hy. simpl. apply IH in HF'. rewrite HF'. reflexivity.
Qed.

(** ** Strings *)

Lemma push_head_length (c : ascii) (l : list string) :
  l <> [] -> List.length (push_head c l) = List.length l.
Proof. destruct l; [congruence | reflexivity]. Qed.

Lemma split_go_nonempty (sep : string) (s : string) (skip : nat) :
  split_go sep skip s <> [].
Proof.
  revert skip. induction s as [|c s IH]; intros skip; simpl.
  - discriminate.
  - destruct skip as [|k]; [|apply IH].
    destruct (startswith sep (String c s)); [discriminate|].
    destruct (split_go sep 0 s) eqn:E; [discriminate | simpl; discriminate].
Qed.

Lemma split_tilde_match (s : string) :
  str_split "~>" ("~>" ++ s) = "" :: str_split "~>" s.
Proof. reflexivity. Qed.

Lemma split_step (sep : string) (c : ascii) (s : string) :
  startswith sep (String c s) = false ->
  str_split sep (String c s) = push_head c (str_split sep s).
Proof. unfold str_split. simpl split_go. intros ->. reflexivity. Qed.

(** What [startswith "~>"] says about the first two characters. *)
Lemma startswith_tilde (s : string) :
  startswith "~>" s = true <-> exists rest, s = "~>" ++ rest.
Proof.
  split.
  - destruct s as [|a [|b rest]]; cbn [startswith]; try discriminate.
    + rewrite andb_false_r. discriminate.
    + rewrite andb_true_r. intros Hab. apply andb_prop in Hab.
      destruct Hab as [Ha Hb]. apply Ascii.eqb_eq in Ha, Hb. subst.
      exists rest. reflexivity.
  - intros [rest ->]. reflexivity.
Qed.

Lemma str_in_cons (sub : string) (c : ascii) (s : string) :
  str_in sub (String c s) = false ->
  startswith sub (String c s) = false /\ str_in sub s = false.
Proof.
  cbn [str_in]. destruct (startswith sub (String c s)); [discriminate|].
  intros Hin. split; [reflexivity | exact Hin].
Qed.

(** An occurrence of ["~>"] cannot straddle the end of a prefix that has
    none and a following ["~>"]: the two characters of the token differ. *)
Lemma startswith_tilde_prefix (c : ascii) (P V : string) :
  str_in "~>" (String c P) = false ->
  startswith "~>" (String c (P ++ "~>" ++ V)) = false.
Proof.
  intros Hin. apply str_in_cons in Hin. destruct Hin as [Hsw _].
  destruct P as [|d P'].
  - cbn [startswith append] in *.
    destruct (Ascii.eqb "~" c); [reflexivity | reflexivity].
  - cbn [startswith append] in *. exact Hsw.
Qed.

Lemma split_prefix (P V : string) :
  str_in "~>" P = false ->
  str_split "~>" (P ++ "~>" ++ V) = P :: str_split "~>" V.
Proof.
  induction P as [|c P IH]; intros Hin.
  - apply split_tilde_match.
  - change (String c P ++ "~>" ++ V) with (String c (P ++ "~>" ++ V)).
    rewrite split_step by (apply startswith_tilde_prefix; exact Hin).
    apply str_in_cons in Hin. destruct Hin as [_ Hin].
    rewrite (IH Hin). reflexivity.
Qed.

Lemma split_length_occurrences_le (n : nat) (s : string) :
  String.length s <= n ->
  List.length (str_split "~>" s) = S (occurrences "~>" s).
Proof.
  revert s. induction n as [|n IH]; intros s Hlen.
  - destruct s; [reflexivity | simpl in Hlen; lia].
  - destruct s as [|c s']; [reflexivity|].
    destruct (startswith "~>" (String c s')) eqn:Hsw.
    + apply startswith_tilde in Hsw. destruct Hsw as [rest Hrest].
      rewrite Hrest. rewrite split_tilde_match.
      cbn [List.length occurrences startswith append].
      rewrite IH.
      * destruct (Ascii.eqb "~" ">") eqn:E; [discriminate E|]. reflexivity.
      * inversion Hrest. subst. simpl in Hlen. lia.
    + rewrite (split_step _ _ _ Hsw).
      rewrite push_head_length by apply split_go_nonempty.
      cbn [occurrences]. rewrite Hsw. rewrite IH; [reflexivity|].
      simpl in Hlen. lia.
Qed.

(** [split] cuts the string into one more piece than it has tokens. *)
Lemma split_length_occurrences (s : string) :
  List.length (str_split "~>" s) = S (occurrences "~>" s).
Proof. apply (split_length_occurrences_le (String.length s)). lia. Qed.

Lemma str_in_occurrences (s : string) :
  str_in "~>" s = false <-> occurrences "~>" s = 0.
Proof.
  induction s as [|c s IH].
  - split; reflexivity.
  - cbn [str_in occurrences].
    destruct (startswith "~>" (String c s)).
    + split; [discriminate | simpl; discriminate].
    + simpl. exact IH.
Qed.

(** The first [":"] of a string: nothing before it is a [":"], and the
    string is rebuilt from its two sides. *)
Lemma find_sep_colon (s before after : string) :
  find_sep ":" s = Some (before, after) ->
  str_in ":" before = false /\ s = before ++ ":" ++ after.
Proof.
  revert before after. induction s as [|c s IH]; intros before after.
  - cbn [find_sep startswith]. discriminate.
  - cbn [find_sep startswith String.length str_drop].
    rewrite andb_true_r.
    destruct (Ascii.eqb ":" c) eqn:Hc.
    + intros Heq. inversion Heq. subst. apply Ascii.eqb_eq in Hc. subst.
      split; reflexivity.
    + destruct (find_sep ":" s) as [[b a]|] eqn:Hs; [|discriminate].
      intros Heq. inversion Heq. subst.
      destruct (IH b after eq_refl) as [Hin Hs'].
      split.
      * cbn [str_in startswith]. rewrite Hc. simpl. exact Hin.
      * rewrite Hs'. reflexivity.
Qed.

Lemma find_sep_colon_app (before rest : string) :
  str_in ":" before = false ->
  find_sep ":" (before ++ ":" ++ rest) = Some (before, rest).
Proof.
  induction before as [|c before IH]; intros Hin.
  - reflexivity.
  - cbn [str_in startswith] in Hin. rewrite andb_true_r in Hin.
    cbn [append find_sep startswith]. rewrite andb_true_r.
    destruct (Ascii.eqb ":" c); [discriminate|].
    change (before ++ String ":" rest) with (before ++ ":" ++ rest).
    rewrite (IH Hin). reflexivity.
Qed.

(** ** The pessimistic upper bound *)

Lemma truthy_of_option (o : option string) :
  truthy (Semver.of_option o) = negb (Semver.is_empty o).
Proof. destruct o; reflexivity. Qed.

(** What the scan does on a parsed version: it stops at index 0 when the
    patch is 0, at index 1 when there is no pre-release, at index 2 when
    there is no build, and at index 3 it reads past the end of the tuple. *)
Lemma find_pessimistic_upper_bound_parsed (s : string) (v : Semver.Version) :
  Semver.parse s = Ok v ->
  find_pessimistic_upper_bound s =
    if N.eqb (Semver.patch v) 0
    then Ok (Some (Semver.to_str (Semver.bump_build v)))
    else if Semver.is_empty (Semver.prerelease v)
    then Ok (Some (Semver.to_str (Semver.bump_minor v)))
    else if Semver.is_empty (Semver.build v)
    then Ok (Some (Semver.to_str (Semver.bump_patch v)))
    else Raise (IndexError "tuple index out of range").
Proof.
  intros Hparse. unfold find_pessimistic_upper_bound. rewrite Hparse.
  cbn [bind Semver.to_tuple pessimistic_scan Nat.ltb Nat.leb Nat.add
       tuple_getitem nth_error truthy].
  destruct (N.eqb (Semver.patch v) 0); [reflexivity|].
  cbn [negb bind Nat.ltb Nat.leb Nat.add tuple_getitem nth_error].
  rewrite truthy_of_option.
  destruct (Semver.is_empty (Semver.prerelease v)); [reflexivity|].
  cbn [negb bind Nat.ltb Nat.leb Nat.add tuple_getitem nth_error].
  rewrite truthy_of_option.
  destruct (Semver.is_empty (Semver.build v)); reflexivity.
Qed.

(** The scan never falls off the end of the loop. *)
Lemma find_pessimistic_upper_bound_not_None (s : string) :
  find_pessimistic_upper_bound s <> Ok None.
Proof.
  destruct (Semver.parse s) as [v|e] eqn:Hparse.
  - rewrite (find_pessimistic_upper_bound_parsed s v Hparse).
    destruct (N.eqb (Semver.patch v) 0); [discriminate|].
    destruct (Semver.is_empty (Semver.prerelease v)); [discriminate|].
    destruct (Semver.is_empty (Semver.build v)); discriminate.
  - unfold find_pessimistic_upper_bound. rewrite Hparse. discriminate.
Qed.

(** ** Containment *)

Section Containment.

Context `{B : VersionBackend}.

Lemma tests_all_true (v : BaseVersion) (rs : list VersionRange) :
  (exists tests,
      Forall2 (fun r b => VersionRange_contains r v = Ok b) rs tests
      /\ all tests = true)
  <-> Forall (fun r => VersionRange_contains r v = Ok true) rs.
Proof.
  induction rs as [|r rs IH].
  - split.
    + intros _. constructor.
    + intros _. exists []. split; [constructor | reflexivity].
  - split.
    + intros [tests [HF Hall]].
      inversion HF as [|r' b rs' tests' Hr HF']. subst.
      unfold all in Hall. cbn [forallb] in Hall.
      apply andb_prop in Hall. destruct Hall as [Hb Hall]. subst b.
      constructor; [exact Hr|]. apply IH. exists tests'. split; assumption.
    + intros HF. inversion HF as [|r' rs' Hr HF']. subst.
      apply IH in HF'. destruct HF' as [tests [HF2 Hall]].
      exists (true :: tests). split; [constructor; assumption | exact Hall].
Qed.

Lemma contains_Ok_true (self : VersionSpecifier) (version : version_arg) :
  __contains__ self version = Ok true <->
  exists v, as_version version = Ok v
            /\ Forall (fun r => VersionRange_contains r v = Ok true)
                      (ranges self).
Proof.
  unfold __contains__. rewrite bind_Ok. split.
  - intros [v [Hv Hk]]. exists v. split; [exact Hv|].
    apply bind_Ok in Hk. destruct Hk as [tests [Htests Hall]].
    apply tests_all_true. exists tests. split.
    + apply list_comprehension_Ok. exact Htests.
    + inversion Hall. reflexivity.
  - intros [v [Hv HF]]. exists v. split; [exact Hv|].
    apply tests_all_true in HF. destruct HF as [tests [HF2 Hall]].
    apply bind_Ok. exists tests. split.
    + apply list_comprehension_Ok. exact HF2.
    + rewrite Hall. reflexivity.
Qed.

(** C1: the containment test returns true exactly when the version (a
    version object, or a string that [parse_version] accepts) satisfies
    every range of the specifier's list. *)
Theorem contains_iff_every_range (self : VersionSpecifier)
    (version : version_arg) :
  __contains__ self version = Ok true <->
  exists v, as_version version = Ok v
            /\ Forall (fun version_range =>
                         VersionRange_contains version_range v = Ok true)
                      (ranges self).
Proof. apply contains_Ok_true. Qed.

(** C9: a version contained in the specifier that has one more range at
    the end of its list is contained in the specifier without it. *)
Theorem contains_monotonic (self : VersionSpecifier) (r : VersionRange)
    (version : version_arg) :
  __contains__ (mkVersionSpecifier _ (scheme self) (ranges self ++ [r])%list)
               version = Ok true ->
  __contains__ self version = Ok true.
Proof.
  intros Hmore. apply contains_Ok_true in Hmore.
  destruct Hmore as [v [Hv HF]]. cbn [ranges] in HF.
  apply Forall_app in HF. destruct HF as [HF _].
  apply contains_Ok_true. exists v. split; assumption.
Qed.

End Containment.

(** ** Construction *)

Section Construction.

Context `{B : VersionBackend}.

Lemma collect_ranges_Ok (scheme : string) (expressions : list string)
    (acc rs : list VersionRange) :
  collect_ranges scheme expressions acc = Ok rs <->
  exists chunks,
    Forall2 (fun e chunk => ranges_of_expression scheme e = Ok chunk)
            expressions chunks
    /\ rs = (acc ++ concat chunks)%list.
Proof.
  revert acc. induction expressions as [|e es IH]; intros acc.
  - cbn [collect_ranges]. split.
    + intros Heq. inversion Heq. exists []. split; [constructor|].
      cbn [concat]. rewrite app_nil_r. reflexivity.
    + intros [chunks [HF Heq]]. inversion HF. subst.
      cbn [concat]. rewrite app_nil_r. reflexivity.
  - cbn [collect_ranges]. rewrite bind_Ok. split.
    + intros [added [He Hrest]]. apply IH in Hrest.
      destruct Hrest as [chunks [HF Heq]].
      exists (added :: chunks). split; [constructor; assumption|].
      cbn [concat]. rewrite Heq, app_assoc. reflexivity.
    + intros [chunks [HF Heq]].
      inversion HF as [|e' added es' chunks' He HF']. subst.
      exists added. split; [exact He|]. apply IH.
      exists chunks'. split; [exact HF'|].
      cbn [concat]. rewrite app_assoc. reflexivity.
Qed.

Lemma from_scheme_Ok (sch value : string) (vs : VersionSpecifier) :
  from_scheme_version_spec_string sch value = Ok vs <->
  exists chunks,
    Forall2 (fun e chunk => ranges_of_expression sch e = Ok chunk)
            (str_split "," (remove_spaces value)) chunks
    /\ vs = mkVersionSpecifier _ sch (concat chunks).
Proof.
  unfold from_scheme_version_spec_string. rewrite bind_Ok. split.
  - intros [rs [Hrs Heq]]. apply collect_ranges_Ok in Hrs.
    destruct Hrs as [chunks [HF Hrs]]. exists chunks. split; [exact HF|].
    inversion Heq. subst. reflexivity.
  - intros [chunks [HF Heq]]. exists (concat chunks). split.
    + apply collect_ranges_Ok. exists chunks. split; [exact HF | reflexivity].
    + subst. reflexivity.
Qed.

Lemma from_scheme_scheme (sch value : string) (vs : VersionSpecifier) :
  from_scheme_version_spec_string sch value = Ok vs -> scheme vs = sch.
Proof.
  intros Hvs. apply from_scheme_Ok in Hvs.
  destruct Hvs as [chunks [_ ->]]. reflexivity.
Qed.

(** An expression that is not sent to the pessimistic expansion adds the
    one range that [VersionRange] builds from it. *)
Lemma ranges_of_primitive (sch e : string) (r : VersionRange) :
  str_in "~>" e = false ->
  VersionRange_init e sch = Ok r ->
  ranges_of_expression sch e = Ok [r].
Proof.
  intros Hin Hr. unfold ranges_of_expression.
  rewrite Hin, andb_false_r, Hr. reflexivity.
Qed.

Lemma primitive_chunks (sch : string) (expressions : list string) :
  (forall e, In e expressions ->
             str_in "~>" e = false /\ exists r, VersionRange_init e sch = Ok r) ->
  exists rs,
    Forall2 (fun e r => VersionRange_init e sch = Ok r) expressions rs
    /\ Forall2 (fun e chunk => ranges_of_expression sch e = Ok chunk)
               expressions (map (fun r => [r]) rs).
Proof.
  induction expressions as [|e es IH]; intros Hall.
  - exists []. split; constructor.
  - destruct (Hall e (or_introl eq_refl)) as [Hin [r Hr]].
    destruct IH as [rs [HF1 HF2]].
    + intros e' He'. apply Hall. right. exact He'.
    + exists (r :: rs). split; constructor; try assumption.
      apply ranges_of_primitive; assumption.
Qed.

Lemma concat_singletons {A : Type} (xs : list A) :
  concat (map (fun x => [x]) xs) = xs.
Proof. induction xs as [|x xs IH]; simpl; [reflexivity | rewrite IH; reflexivity]. Qed.

(** What one expression adds under the scheme [semver]: the pair of the
    pessimistic expansion when it has the token, one range otherwise. *)
Lemma ranges_of_semver_expression (e : string) (chunk : list VersionRange) :
  ranges_of_expression "semver" e = Ok chunk ->
  if str_in "~>" e
  then exists lower upper,
         normalized_pessimistic_ranges e = Ok (lower, upper)
         /\ chunk = [lower; upper]
  else exists r, VersionRange_init e "semver" = Ok r /\ chunk = [r].
Proof.
  unfold ranges_of_expression. cbn [String.eqb Ascii.eqb Bool.eqb andb].
  destruct (str_in "~>" e).
  - intros Hk. apply bind_Ok in Hk. destruct Hk as [[lower upper] [Hn Hk]].
    inversion Hk. exists lower, upper. split; [exact Hn | reflexivity].
  - intros Hk. apply bind_Ok in Hk. destruct Hk as [r [Hr Hk]].
    inversion Hk. exists r. split; [exact Hr | reflexivity].
Qed.

(** C5: when every expression of the comma-separated list is free of the
    token ["~>"] and is accepted by [VersionRange], the specifier stores one
    range per expression, in the order of the input; and under [semver]
    the stored list is made, in input order, of two ranges for each
    expression with the token and one range for each other expression. *)
Theorem stored_ranges (sch value : string) :
  let expressions := str_split "," (remove_spaces value) in
  ((forall e, In e expressions ->
              str_in "~>" e = false
              /\ exists r, VersionRange_init e sch = Ok r) ->
   exists rs,
     from_scheme_version_spec_string sch value
       = Ok (mkVersionSpecifier _ sch rs)
     /\ List.length rs = List.length expressions
     /\ Forall2 (fun e r => VersionRange_init e sch = Ok r) expressions rs)
  /\
  (forall vs,
     from_scheme_version_spec_string "semver" value = Ok vs ->
     exists chunks,
       ranges vs = concat chunks
       /\ Forall2
            (fun e chunk =>
               if str_in "~>" e
               then exists lower upper,
                      normalized_pessimistic_ranges e = Ok (lower, upper)
                      /\ chunk = [lower; upper]
               else exists r,
                      VersionRange_init e "semver" = Ok r /\ chunk = [r])
            expressions chunks).
Proof.
  intros expressions. split.
  - intros Hall. destruct (primitive_chunks sch expressions Hall)
      as [rs [HF1 HF2]].
    exists rs. split; [|split].
    + apply from_scheme_Ok. exists (map (fun r => [r]) rs).
      split; [exact HF2|]. rewrite concat_singletons. reflexivity.
    + symmetry. apply (Forall2_length HF1).
    + exact HF1.
  - intros vs Hvs. apply from_scheme_Ok in Hvs.
    destruct Hvs as [chunks [HF ->]]. exists chunks.
    split; [reflexivity|].
    fold expressions in HF. clear -HF.
    induction HF as [|e chunk es chunks He HF IH]; constructor.
    + apply ranges_of_semver_expression. exact He.
    + exact IH.
Qed.

End Construction.

(** ** The pessimistic expansion *)

Section Pessimistic.

Context `{B : VersionBackend}.

(** The expansion of a string that [split] cuts in two. *)
Lemma normalized_two_pieces (s before version : string) :
  str_split "~>" s = [before; version] ->
  normalized_pessimistic_ranges s =
    (upper_bound <- find_pessimistic_upper_bound version ;;
     lower <- VersionRange_init (">=" ++ version) "semver" ;;
     upper <- VersionRange_init ("<" ++ format_option upper_bound) "semver" ;;
     Ok (lower, upper)).
Proof. unfold normalized_pessimistic_ranges. intros ->. reflexivity. Qed.

(** The expansion of a string that [split] does not cut in two. *)
Lemma normalized_not_two_pieces (s : string) :
  List.length (str_split "~>" s) <> 2 ->
  normalized_pessimistic_ranges s =
    Raise (ValueError ("The version range string " ++ s ++ " is not valid")).
Proof.
  unfold normalized_pessimistic_ranges.
  destruct (str_split "~>" s) as [|a [|b [|c l]]]; cbn [List.length];
    intros Hlen; try reflexivity.
  contradiction Hlen. reflexivity.
Qed.

(** C3: under [semver] the expression ["~>2.0.8"] is expanded to the two
    ranges that [VersionRange] builds from [">=2.0.8"] and ["<2.1.0"] with
    the scheme [semver], the lower bound first; they are the stored list of
    the specifier. *)
Theorem pessimistic_2_0_8 :
  normalized_pessimistic_ranges "~>2.0.8" =
    (lower <- VersionRange_init ">=2.0.8" "semver" ;;
     upper <- VersionRange_init "<2.1.0" "semver" ;;
     Ok (lower, upper))
  /\ from_scheme_version_spec_string "semver" "~>2.0.8" =
    (lower <- VersionRange_init ">=2.0.8" "semver" ;;
     upper <- VersionRange_init "<2.1.0" "semver" ;;
     Ok (mkVersionSpecifier _ "semver" [lower; upper])).
Proof.
  assert (Hn : normalized_pessimistic_ranges "~>2.0.8" =
    (lower <- VersionRange_init ">=2.0.8" "semver" ;;
     upper <- VersionRange_init "<2.1.0" "semver" ;;
     Ok (lower, upper))).
  { rewrite (normalized_two_pieces "~>2.0.8" "" "2.0.8" eq_refl).
    reflexivity. }
  split; [exact Hn|].
  unfold from_scheme_version_spec_string.
  change (str_split "," (remove_spaces "~>2.0.8")) with ["~>2.0.8"].
  cbn [collect_ranges]. unfold ranges_of_expression.
  change (String.eqb "semver" "semver" && str_in "~>" "~>2.0.8") with true.
  cbv iota. rewrite Hn.
  destruct (VersionRange_init ">=2.0.8" "semver") as [lower|e];
    [|reflexivity].
  destruct (VersionRange_init "<2.1.0" "semver") as [upper|e];
    reflexivity.
Qed.

(** C7: the expansion ends in a [ValueError] whenever the token ["~>"]
    does not occur exactly once or the text after it is empty; the
    expression ["~>"] is such a case, also when it is given to the
    constructor under the scheme [semver]. *)
Theorem pessimistic_expansion_errors :
  (forall s,
      occurrences "~>" s <> 1 \/ nth 1 (str_split "~>" s) "" = "" ->
      raises_ValueError (normalized_pessimistic_ranges s))
  /\ normalized_pessimistic_ranges "~>"
     = Raise (ValueError " is not valid SemVer string")
  /\ from_scheme_version_spec_string "semver" "~>"
     = Raise (ValueError " is not valid SemVer string").
Proof.
  split; [|split; reflexivity].
  intros s Hs.
  destruct (Nat.eq_dec (occurrences "~>" s) 1) as [Hone|Hnot].
  - destruct Hs as [Hs|Hs]; [contradiction|].
    pose proof (split_length_occurrences s) as Hlen. rewrite Hone in Hlen.
    destruct (str_split "~>" s) as [|a [|b [|c l]]] eqn:Hsplit;
      try discriminate Hlen.
    cbn [nth] in Hs. subst b.
    rewrite (normalized_two_pieces s a "" Hsplit).
    exists " is not valid SemVer string". reflexivity.
  - exists ("The version range string " ++ s ++ " is not valid").
    apply normalized_not_two_pieces.
    rewrite split_length_occurrences. lia.
Qed.

(** C10: the text before the token is dropped: when the prefix has no
    ["~>"], the expansion of prefix, token and version text returns a pair
    exactly when the expansion of token and version text returns it; when
    the version text has no token either, the two calls agree on their
    failure as well. *)
Theorem pessimistic_prefix_discarded (P V : string) :
  str_in "~>" P = false ->
  (forall pair,
      normalized_pessimistic_ranges (P ++ "~>" ++ V) = Ok pair
      <-> normalized_pessimistic_ranges ("~>" ++ V) = Ok pair)
  /\ (str_in "~>" V = false ->
      normalized_pessimistic_ranges (P ++ "~>" ++ V)
      = normalized_pessimistic_ranges ("~>" ++ V)).
Proof.
  intros HP.
  pose proof (split_prefix P V HP) as Hfull.
  pose proof (split_prefix "" V eq_refl) as Hbare.
  change ("" ++ "~>" ++ V) with ("~>" ++ V) in Hbare.
  destruct (str_split "~>" V) as [|version [|x l]] eqn:HV.
  - exfalso. exact (split_go_nonempty "~>" V 0 HV).
  - rewrite (normalized_two_pieces _ _ _ Hfull).
    rewrite (normalized_two_pieces _ _ _ Hbare).
    split; [intros pair; reflexivity | intros _; reflexivity].
  - split.
    + intros pair.
      rewrite (normalized_not_two_pieces (P ++ "~>" ++ V))
        by (rewrite Hfull; cbn [List.length]; lia).
      rewrite (normalized_not_two_pieces ("~>" ++ V))
        by (rewrite Hbare; cbn [List.length]; lia).
      split; discriminate.
    + intros HVin. apply str_in_occurrences in HVin.
      pose proof (split_length_occurrences V) as Hlen.
      rewrite HV, HVin in Hlen. cbn [List.length] in Hlen. lia.
Qed.

End Pessimistic.

(** ** Parsing a full specifier and rendering it *)

Section Parsing.

Context `{B : VersionBackend}.

Lemma from_version_spec_string_unfold (s : string) :
  from_version_spec_string s =
    if String.eqb (scheme_of s) "" then
      Raise (ValueError (s ++ " is not prefixed by scheme"))
    else if String.eqb (remainder_of s) "" then
      Raise (ValueError (s ++ " contains no version range"))
    else from_scheme_version_spec_string (scheme_of s) (remainder_of s).
Proof.
  unfold from_version_spec_string, scheme_of, remainder_of, str_partition.
  destruct (find_sep ":" s) as [[before after]|]; reflexivity.
Qed.

Lemma remainder_without_colon (s : string) :
  str_in ":" s = false -> remainder_of s = "".
Proof.
  unfold remainder_of, str_partition.
  destruct (find_sep ":" s) as [[before after]|] eqn:Hs; [|reflexivity].
  apply find_sep_colon in Hs. destruct Hs as [Hbefore ->].
  intros Hin. exfalso. clear Hbefore.
  induction before as [|c before IH].
  - cbn [append str_in startswith] in Hin.
    rewrite Ascii.eqb_refl in Hin. discriminate.
  - cbn [append str_in] in Hin.
    match type of Hin with
    | (if ?b then _ else _) = _ => destruct b
    end; [discriminate | exact (IH Hin)].
Qed.

(** C6 (as amended): the parser raises its own [ValueError] exactly when
    the text before the first [":"] is empty or the remainder after it is
    empty, which is the case of every string without a [":"]; any other
    string goes to the scheme-specific constructor, whose result is
    returned as it is; ["novalue"] is refused. *)
Theorem from_version_spec_string_cases (s : string) :
  (scheme_of s = "" ->
   from_version_spec_string s
   = Raise (ValueError (s ++ " is not prefixed by scheme")))
  /\ (scheme_of s <> "" -> remainder_of s = "" ->
      from_version_spec_string s
      = Raise (ValueError (s ++ " contains no version range")))
  /\ (scheme_of s <> "" -> remainder_of s <> "" ->
      from_version_spec_string s
      = from_scheme_version_spec_string (scheme_of s) (remainder_of s))
  /\ (str_in ":" s = false -> remainder_of s = "")
  /\ from_version_spec_string "novalue"
     = Raise (ValueError "novalue contains no version range").
Proof.
  rewrite from_version_spec_string_unfold.
  repeat split.
  - intros ->. reflexivity.
  - intros Hs Hr. apply String.eqb_neq in Hs. rewrite Hs, Hr. reflexivity.
  - intros Hs Hr. apply String.eqb_neq in Hs, Hr. rewrite Hs, Hr.
    reflexivity.
  - apply remainder_without_colon.
Qed.

Lemma join_items_Raise (class_name : string) (position : N)
    (items : list (option string)) :
  In None items ->
  exists msg, join_items class_name position items = Raise (TypeError msg).
Proof.
  revert position. induction items as [|[t|] items IH]; intros position Hin.
  - destruct Hin.
  - destruct Hin as [Hin|Hin]; [discriminate|].
    destruct (IH (position + 1)%N Hin) as [msg Hmsg].
    exists msg. cbn [join_items]. rewrite Hmsg. reflexivity.
  - eexists. reflexivity.
Qed.

(** A stored range that is no string makes the rendering end in
    [TypeError]. *)
Lemma str_of_other_objects (self : VersionSpecifier) :
  In None (map VersionRange_as_str (ranges self)) ->
  exists msg, __str__ self = Raise (TypeError msg).
Proof.
  intros Hin. unfold __str__, str_join.
  destruct (join_items_Raise "VersionRange" 0 _ Hin) as [msg Hmsg].
  exists msg. rewrite Hmsg. reflexivity.
Qed.

End Parsing.

(** ** The module at concrete inputs *)

Lemma length_app (a b : string) :
  String.length (a ++ b) = String.length a + String.length b.
Proof. induction a as [|c a IH]; simpl; [reflexivity | rewrite IH; reflexivity]. Qed.

(** C2: on ["2.0.0"] the scan stops at index 0, the slot of the major
    number, because the patch two places ahead is 0; the entry of index 0
    calls [bump_build], so the result keeps the major number and is not
    ["3.0.0"]; it does not even rank above ["2.0.0"], and the specifier
    built from ["~>2.0.0"] holds no version, not ["2.0.0"] itself.  In the
    same way the specifier built from ["~>1.2.0"] does not hold
    ["1.2.5"]. *)
Theorem upper_bound_of_zero_patch :
  find_pessimistic_upper_bound "2.0.0" = Ok (Some "2.0.0+build.1")
  /\ Semver.to_str (Semver.bump_major (Semver.mkVersion 2 0 0 None None))
     = "3.0.0"
  /\ Semver.compare (Semver.mkVersion 2 0 0 None (Some "build.1"))
                    (Semver.mkVersion 2 0 0 None None) = Eq
  /\ (vs <- @from_scheme_version_spec_string SemverBackend.backend
              "semver" "~>2.0.0" ;;
      __contains__ vs (version_str "2.0.0")) = Ok false
  /\ (vs <- @from_scheme_version_spec_string SemverBackend.backend
              "semver" "~>1.2.0" ;;
      __contains__ vs (version_str "1.2.5")) = Ok false.
Proof. repeat split. Qed.

(** C4: on a version with a non-zero patch, a pre-release and a build the
    scan reaches index 3 and reads [version_tuple[5]]: the call ends in
    [IndexError]; no input at all reaches the [ValueError] that the loop
    keeps for an index above 3. *)
Theorem no_bound_error_unreachable :
  find_pessimistic_upper_bound "1.2.3-rc.1+build.5"
  = Raise (IndexError "tuple index out of range")
  /\ forall s,
       find_pessimistic_upper_bound s
       <> Raise (ValueError
            ("No pessismistic upper bound exists for the provided version "
             ++ s)).
Proof.
  split; [reflexivity|].
  intros s. destruct (Semver.parse s) as [v|e] eqn:Hparse.
  - rewrite (find_pessimistic_upper_bound_parsed s v Hparse).
    destruct (N.eqb (Semver.patch v) 0); [discriminate|].
    destruct (Semver.is_empty (Semver.prerelease v)); [discriminate|].
    destruct (Semver.is_empty (Semver.build v)); discriminate.
  - unfold find_pessimistic_upper_bound. rewrite Hparse. cbn [bind].
    unfold Semver.parse in Hparse.
    destruct (Semver.match_regex s) as [[[[[ma mi] pa] pre] bld]|];
      [discriminate|].
    inversion Hparse. intros Heq. inversion Heq as [Hmsg].
    apply (f_equal String.length) in Hmsg.
    rewrite !length_app in Hmsg. simpl in Hmsg. lia.
Qed.

(** C6, the claim as first stated, fails on [":1.0"]: the string has a
    [":"] and a remainder, and is refused for its empty scheme. *)
Lemma malformed_with_colon :
  ~ (raises_ValueError
       (@from_version_spec_string SemverBackend.backend ":1.0")
     <-> (str_in ":" ":1.0" = false \/ remainder_of ":1.0" = "")).
Proof.
  intros [Hraise _].
  destruct Hraise as [Hin|Hrem]; [|discriminate Hin | discriminate Hrem].
  exists ":1.0 is not prefixed by scheme". reflexivity.
Qed.

(** [contains_monotonic] on the ranges [>=1.0.0] and [<2.0.0] and the
    version ["1.5.0"]. *)
Lemma contains_monotonic_witness :
  let ge := SemverBackend.mkRange "semver" SemverBackend.GreaterEqual
              (Semver.mkVersion 1 0 0 None None) in
  let lt := SemverBackend.mkRange "semver" SemverBackend.Less
              (Semver.mkVersion 2 0 0 None None) in
  @__contains__ SemverBackend.backend
    (mkVersionSpecifier SemverBackend.backend "semver" [ge; lt])
    (version_str "1.5.0") = Ok true
  /\ @__contains__ SemverBackend.backend
       (mkVersionSpecifier SemverBackend.backend "semver" [ge])
       (version_str "1.5.0") = Ok true.
Proof.
  intros ge lt. split; [reflexivity|].
  apply (@contains_monotonic SemverBackend.backend
           (mkVersionSpecifier SemverBackend.backend "semver" [ge]) lt
           (version_str "1.5.0")).
  reflexivity.
Defined.

(** [stored_ranges] on two primitive expressions, and on a pessimistic
    expression followed by a primitive one. *)
Lemma stored_ranges_witness :
  (exists rs,
      @from_scheme_version_spec_string SemverBackend.backend
        "semver" ">= 1.0.0, < 2.0.0"
      = Ok (mkVersionSpecifier SemverBackend.backend "semver" rs)
      /\ List.length rs = 2)
  /\ (exists vs chunks,
         @from_scheme_version_spec_string SemverBackend.backend
           "semver" "~>2.0.8,<2.0.9" = Ok vs
         /\ @ranges SemverBackend.backend vs = concat chunks
         /\ List.length chunks = 2
         /\ List.length (@ranges SemverBackend.backend vs) = 3).
Proof.
  split.
  - destruct (proj1 (@stored_ranges SemverBackend.backend
                       "semver" ">= 1.0.0, < 2.0.0")) as [rs [Hrs [Hlen _]]].
    + intros e [<-|[<-|[]]]; (split; [reflexivity|]); eexists; reflexivity.
    + exists rs. split; [exact Hrs | exact Hlen].
  - destruct (@from_scheme_version_spec_string SemverBackend.backend
                "semver" "~>2.0.8,<2.0.9") as [vs|e] eqn:Hvs;
      [|discriminate Hvs].
    destruct (proj2 (@stored_ranges SemverBackend.backend
                       "semver" "~>2.0.8,<2.0.9") vs Hvs)
      as [chunks [Hranges HF]].
    exists vs, chunks. split; [reflexivity|]. split; [exact Hranges|].
    split.
    + apply Forall2_length in HF. rewrite <- HF. reflexivity.
    + inversion Hvs. reflexivity.
Defined.

(** [pessimistic_expansion_errors] on a string without the token and on a
    string that ends with it. *)
Lemma pessimistic_expansion_errors_witness :
  raises_ValueError
    (@normalized_pessimistic_ranges SemverBackend.backend "1.2.3")
  /\ raises_ValueError
       (@normalized_pessimistic_ranges SemverBackend.backend ">=1.0~>").
Proof.
  split.
  - apply (proj1 (@pessimistic_expansion_errors SemverBackend.backend)).
    left. simpl. lia.
  - apply (proj1 (@pessimistic_expansion_errors SemverBackend.backend)).
    right. reflexivity.
Defined.

(** [pessimistic_prefix_discarded] on the prefix ["abc"]. *)
Lemma pessimistic_prefix_discarded_witness :
  @normalized_pessimistic_ranges SemverBackend.backend "abc~>2.0.8"
  = @normalized_pessimistic_ranges SemverBackend.backend "~>2.0.8".
Proof.
  apply (proj2 (@pessimistic_prefix_discarded SemverBackend.backend
                  "abc" "2.0.8" eq_refl)).
  reflexivity.
Defined.

(** [from_version_spec_string_cases] on an empty scheme, an empty
    remainder and a well-formed string. *)
Lemma from_version_spec_string_cases_witness :
  @from_version_spec_string SemverBackend.backend ":1.0"
  = Raise (ValueError ":1.0 is not prefixed by scheme")
  /\ @from_version_spec_string SemverBackend.backend "semver:"
     = Raise (ValueError "semver: contains no version range")
  /\ @from_version_spec_string SemverBackend.backend "semver:1.0.0"
     = @from_scheme_version_spec_string SemverBackend.backend
         "semver" "1.0.0".
Proof.
  split; [|split].
  - apply (proj1 (@from_version_spec_string_cases SemverBackend.backend
                    ":1.0")).
    reflexivity.
  - apply (proj1 (proj2 (@from_version_spec_string_cases
                           SemverBackend.backend "semver:"))).
    + discriminate.
    + reflexivity.
  - apply (proj1 (proj2 (proj2 (@from_version_spec_string_cases
                                  SemverBackend.backend "semver:1.0.0")))).
    + discriminate.
    + discriminate.
Defined.

(** ** The module run on sample inputs *)

Example split_commas :
  str_split "," ">=1.0.0,<2.0.0" = [">=1.0.0"; "<2.0.0"].
Proof. reflexivity. Qed.

Example split_tokens : str_split "~>" "a~>b~>" = ["a"; "b"; ""].
Proof. reflexivity. Qed.

Example partition_colon :
  str_partition ":" "semver:1.2.3,>=2.0.0" = ("semver", ":", "1.2.3,>=2.0.0").
Proof. reflexivity. Qed.

Example partition_without_colon :
  str_partition ":" "novalue" = ("novalue", "", "").
Proof. reflexivity. Qed.

Example parse_full :
  Semver.parse "2.0.8-rc.1+build.5"
  = Ok (Semver.mkVersion 2 0 8 (Some "rc.1") (Some "build.5")).
Proof. reflexivity. Qed.

Example parse_leading_zero :
  Semver.parse "2.01.8" = Raise (ValueError "2.01.8 is not valid SemVer string").
Proof. reflexivity. Qed.

Example increment_keeps_width : Semver.increment_string "rc.009" = "rc.010".
Proof. reflexivity. Qed.

Example increment_last_number : Semver.increment_string "a9b99c" = "a9b100c".
Proof. reflexivity. Qed.

Example upper_bound_docstring :
  find_pessimistic_upper_bound "2.0.8" = Ok (Some "2.1.0").
Proof. reflexivity. Qed.

Example upper_bound_prerelease :
  find_pessimistic_upper_bound "2.0.8-rc.1" = Ok (Some "2.0.9").
Proof. reflexivity. Qed.

Example range_of_two_bounds :
  (vs <- @from_version_spec_string SemverBackend.backend
           "semver:>=1.0.0,<2.0.0" ;;
   inside <- __contains__ vs (version_str "1.5.0") ;;
   outside <- __contains__ vs (version_str "2.0.0") ;;
   Ok (inside, outside)) = Ok (true, false).
Proof. reflexivity. Qed.

Example pessimistic_with_spaces :
  (vs <- @from_version_spec_string SemverBackend.backend
           "semver: ~> 1.2.1, <1.2.9" ;;
   Ok (List.length (ranges vs))) = Ok 3.
Proof. reflexivity. Qed.

(** * Further properties of the module *)

(** ** [__contains__]: every answer, failures and the order of the ranges *)

Section ContainmentAnswers.

Context `{B : VersionBackend}.

Lemma contains_Ok (self : VersionSpecifier) (version : version_arg)
    (answer : bool) :
  __contains__ self version = Ok answer <->
  exists v tests,
    as_version version = Ok v
    /\ Forall2 (fun r t => VersionRange_contains r v = Ok t)
               (ranges self) tests
    /\ answer = all tests.
Proof.
  unfold __contains__. rewrite bind_Ok. split.
  - intros [v [Hv Hk]]. apply bind_Ok in Hk.
    destruct Hk as [tests [Htests Hall]].
    exists v, tests. split; [exact Hv|]. split.
    + apply list_comprehension_Ok. exact Htests.
    + inversion Hall. reflexivity.
  - intros [v [tests [Hv [HF Hall]]]]. exists v. split; [exact Hv|].
    apply bind_Ok. exists tests. split.
    + apply list_comprehension_Ok. exact HF.
    + rewrite Hall. reflexivity.
Qed.

Lemma tests_some_false (v : BaseVersion) (rs : list VersionRange) :
  (exists tests,
      Forall2 (fun r t => VersionRange_contains r v = Ok t) rs tests
      /\ all tests = false)
  <-> Forall (fun r => exists t, VersionRange_contains r v = Ok t) rs
      /\ Exists (fun r => VersionRange_contains r v = Ok false) rs.
Proof.
  induction rs as [|r rs IH].
  - split.
    + intros [tests [HF Hall]]. inversion HF. subst. discriminate Hall.
    + intros [_ HE]. inversion HE.
  - split.
    + intros [tests [HF Hall]].
      inversion HF as [|r' t rs' tests' Hr HF']. subst.
      unfold all in Hall. cbn [forallb] in Hall.
      assert (Hanswers :
        Forall (fun r => exists t, VersionRange_contains r v = Ok t) rs).
      { clear -HF'. induction HF'; constructor; eauto. }
      split; [constructor; eauto|].
      destruct t.
      * apply Exists_cons_tl. apply IH. exists tests'. split; assumption.
      * apply Exists_cons_hd. exact Hr.
    + intros [HF HE]. inversion HF as [|r' rs' [t Hr] HF']. subst.
      inversion HE as [r' rs' Hfalse | r' rs' HE']; subst.
      * assert (Htests : exists tests,
          Forall2 (fun r t => VersionRange_contains r v = Ok t) rs tests).
        { clear -HF'. induction HF' as [|r rs [t Hr] _ [tests IH]].
          - exists []. constructor.
          - exists (t :: tests). constructor; assumption. }
        destruct Htests as [tests Htests].
        exists (false :: tests). split; [constructor; assumption|].
        reflexivity.
      * destruct (proj2 IH (conj HF' HE')) as [tests [Htests Hall]].
        exists (t :: tests). split; [constructor; assumption|].
        unfold all in *. cbn [forallb]. rewrite Hall.
        apply andb_false_r.
Qed.

Lemma contains_Ok_false (self : VersionSpecifier)
    (version : version_arg) :
  __contains__ self version = Ok false <->
  exists v,
    as_version version = Ok v
    /\ Forall (fun r => exists t, VersionRange_contains r v = Ok t)
              (ranges self)
    /\ Exists (fun r => VersionRange_contains r v = Ok false)
              (ranges self).
Proof.
  rewrite contains_Ok. split.
  - intros [v [tests [Hv [HF Hall]]]]. exists v. split; [exact Hv|].
    apply tests_some_false. exists tests. split; [exact HF|].
    symmetry. exact Hall.
  - intros [v [Hv Hrs]]. apply tests_some_false in Hrs.
    destruct Hrs as [tests [HF Hall]].
    exists v, tests. split; [exact Hv|]. split; [exact HF|].
    symmetry. exact Hall.
Qed.

(** X1: the containment test returns false exactly when the version is
    resolved, every range gives an answer and at least one of the answers
    is false. *)
Theorem contains_false_iff (self : VersionSpecifier)
    (version : version_arg) :
  __contains__ self version = Ok false <->
  exists v,
    as_version version = Ok v
    /\ Forall (fun r => exists t, VersionRange_contains r v = Ok t)
              (ranges self)
    /\ Exists (fun r => VersionRange_contains r v = Ok false)
              (ranges self).
Proof. apply contains_Ok_false. Qed.

Lemma list_comprehension_Raise {A C : Type} (f : A -> result C)
    (pre : list A) (x : A) (post : list A) (e : exn) :
  Forall (fun y => exists t, f y = Ok t) pre ->
  f x = Raise e ->
  list_comprehension f (pre ++ x :: post) = Raise e.
Proof.
  intros Hpre Hx. induction Hpre as [|y pre [t Hy] _ IH].
  - cbn [app list_comprehension]. rewrite Hx. reflexivity.
  - cbn [app list_comprehension]. rewrite Hy. cbn [bind]. rewrite IH.
    reflexivity.
Qed.

(** X2: the tests are all made before [all] looks at them: when a range
    raises, and the ranges before it gave an answer, the containment test
    ends in that exception, also when one of these answers was false. *)
Theorem contains_does_not_short_circuit (self : VersionSpecifier)
    (version : version_arg) (v : BaseVersion)
    (pre : list VersionRange) (r : VersionRange) (post : list VersionRange)
    (e : exn) :
  as_version version = Ok v ->
  ranges self = (pre ++ r :: post)%list ->
  Forall (fun r' => exists t, VersionRange_contains r' v = Ok t) pre ->
  VersionRange_contains r v = Raise e ->
  __contains__ self version = Raise e.
Proof.
  intros Hv Hranges Hpre Hr. unfold __contains__.
  rewrite Hv, Hranges. cbn [bind].
  rewrite (list_comprehension_Raise _ pre r post e Hpre Hr). reflexivity.
Qed.

(** X3: a version is contained in the specifier of two lists of ranges put
    end to end exactly when it is contained in the specifier of each. *)
Theorem contains_app (sch1 sch2 sch : string)
    (rs1 rs2 : list VersionRange) (version : version_arg) :
  __contains__ (mkVersionSpecifier _ sch (rs1 ++ rs2)%list) version = Ok true
  <-> __contains__ (mkVersionSpecifier _ sch1 rs1) version = Ok true
      /\ __contains__ (mkVersionSpecifier _ sch2 rs2) version = Ok true.
Proof.
  rewrite !contains_Ok_true. cbn [ranges]. split.
  - intros [v [Hv HF]]. apply Forall_app in HF. destruct HF as [H1 H2].
    split; exists v; split; assumption.
  - intros [[v [Hv H1]] [w [Hw H2]]].
    rewrite Hv in Hw. inversion Hw. subst w.
    exists v. split; [exact Hv|]. apply Forall_app. split; assumption.
Qed.

(** X4: the order of the ranges does not change an answer: two specifiers
    whose lists of ranges are permutations of each other return the same
    boolean, when either returns one. *)
Theorem contains_permutation (a b : VersionSpecifier)
    (version : version_arg) (answer : bool) :
  Permutation (ranges a) (ranges b) ->
  __contains__ a version = Ok answer ->
  __contains__ b version = Ok answer.
Proof.
  intros Hperm Ha. destruct answer.
  - apply contains_Ok_true in Ha. destruct Ha as [v [Hv HF]].
    apply contains_Ok_true. exists v. split; [exact Hv|].
    apply (Permutation_Forall Hperm). exact HF.
  - apply contains_Ok_false in Ha. destruct Ha as [v [Hv [HF HE]]].
    apply contains_Ok_false. exists v. split; [exact Hv|]. split.
    + apply (Permutation_Forall Hperm). exact HF.
    + apply (Permutation_Exists Hperm). exact HE.
Qed.

End ContainmentAnswers.

(** ** The constructors: what is stored, and the first failure *)

Section ConstructionMore.

Context `{B : VersionBackend}.

Lemma collect_ranges_Raise (sch : string) (pre : list string) (e : string)
    (post : list string) (acc : list VersionRange) (x : exn) :
  Forall (fun e' => exists chunk, ranges_of_expression sch e' = Ok chunk)
         pre ->
  ranges_of_expression sch e = Raise x ->
  collect_ranges sch (pre ++ e :: post) acc = Raise x.
Proof.
  intros Hpre He. revert acc.
  induction Hpre as [|e' pre [chunk He'] _ IH]; intros acc.
  - cbn [app collect_ranges]. rewrite He. reflexivity.
  - cbn [app collect_ranges]. rewrite He'. cbn [bind]. apply IH.
Qed.

(** X5: the expressions are built from left to right and the first one
    that fails ends the construction with its exception: no specifier is
    returned and the expressions after it are not looked at. *)
Theorem first_failure_ends_construction (sch value : string)
    (pre : list string) (e : string) (post : list string) (x : exn) :
  str_split "," (remove_spaces value) = (pre ++ e :: post)%list ->
  Forall (fun e' => exists chunk, ranges_of_expression sch e' = Ok chunk)
         pre ->
  ranges_of_expression sch e = Raise x ->
  from_scheme_version_spec_string sch value = Raise x.
Proof.
  intros Hsplit Hpre He. unfold from_scheme_version_spec_string.
  rewrite Hsplit.
  rewrite (collect_ranges_Raise sch pre e post [] x Hpre He). reflexivity.
Qed.

Lemma ranges_of_other_scheme (sch e : string) :
  String.eqb sch "semver" = false ->
  ranges_of_expression sch e
  = (range <- VersionRange_init e sch ;; Ok [range]).
Proof. intros Hsch. unfold ranges_of_expression. rewrite Hsch. reflexivity. Qed.

(** X6: under a scheme other than [semver] the token ["~>"] is not
    expanded: the constructor returns a specifier exactly when
    [VersionRange] accepts every expression, and the specifier stores the
    scheme and one range per expression, in the order of the input. *)
Theorem other_scheme_ranges (sch value : string) (vs : VersionSpecifier) :
  sch <> "semver" ->
  (from_scheme_version_spec_string sch value = Ok vs
   <-> scheme vs = sch
       /\ Forall2 (fun e r => VersionRange_init e sch = Ok r)
                  (str_split "," (remove_spaces value)) (ranges vs)).
Proof.
  intros Hsch. apply String.eqb_neq in Hsch.
  rewrite from_scheme_Ok. split.
  - intros [chunks [HF ->]]. cbn [scheme ranges]. split; [reflexivity|].
    induction HF as [|e chunk es chunks He HF IH].
    + constructor.
    + rewrite (ranges_of_other_scheme sch e Hsch) in He.
      apply bind_Ok in He. destruct He as [r [Hr Hchunk]].
      inversion Hchunk. subst chunk. cbn [concat app].
      constructor; assumption.
  - intros [Hscheme HF]. exists (map (fun r => [r]) (ranges vs)). split.
    + clear Hscheme. induction HF as [|e r es rs Hr HF IH].
      * constructor.
      * cbn [map]. constructor; [|exact IH].
        rewrite (ranges_of_other_scheme sch e Hsch), Hr. reflexivity.
    + rewrite concat_singletons. destruct vs as [sch' rs].
      cbn [scheme ranges] in *. subst. reflexivity.
Qed.

Lemma ranges_of_expression_length (sch e : string)
    (chunk : list VersionRange) :
  ranges_of_expression sch e = Ok chunk ->
  1 <= List.length chunk <= 2.
Proof.
  unfold ranges_of_expression.
  destruct (String.eqb sch "semver" && str_in "~>" e).
  - intros Hk. apply bind_Ok in Hk. destruct Hk as [[lower upper] [_ Hk]].
    inversion Hk. cbn [List.length]. lia.
  - intros Hk. apply bind_Ok in Hk. destruct Hk as [r [_ Hk]].
    inversion Hk. cbn [List.length]. lia.
Qed.

Lemma chunks_length (sch : string) (es : list string)
    (chunks : list (list VersionRange)) :
  Forall2 (fun e chunk => ranges_of_expression sch e = Ok chunk) es chunks ->
  List.length es <= List.length (concat chunks) <= 2 * List.length es.
Proof.
  induction 1 as [|e chunk es chunks He HF IH].
  - cbn. lia.
  - cbn [concat List.length]. rewrite List.length_app.
    pose proof (ranges_of_expression_length sch e chunk He). lia.
Qed.

(** X7: a specifier that the constructor returns has the scheme it was
    given and at least one range; with N expressions between the commas it
    stores at least N and at most 2 N ranges. *)
Theorem constructed_specifier_bounds (sch value : string)
    (vs : VersionSpecifier) :
  from_scheme_version_spec_string sch value = Ok vs ->
  scheme vs = sch
  /\ ranges vs <> []
  /\ List.length (str_split "," (remove_spaces value))
     <= List.length (ranges vs)
     <= 2 * List.length (str_split "," (remove_spaces value)).
Proof.
  intros Hvs. apply from_scheme_Ok in Hvs.
  destruct Hvs as [chunks [HF ->]]. cbn [scheme ranges].
  pose proof (chunks_length sch _ chunks HF) as Hlen.
  split; [reflexivity|]. split; [|exact Hlen].
  intros Hnil. rewrite Hnil in Hlen. cbn [List.length] in Hlen.
  pose proof (split_go_nonempty "," (remove_spaces value) 0) as Hne.
  unfold str_split in Hlen.
  destruct (split_go "," 0 (remove_spaces value)); [congruence|].
  cbn [List.length] in Hlen. lia.
Qed.

(** X8: a non-empty scheme without [":"], a [":"] and a non-empty rest,
    which may hold further [":"], are parsed as the scheme-specific
    constructor parses the scheme and the rest. *)
Theorem parse_scheme_and_rest (sch rest : string) :
  sch <> "" -> str_in ":" sch = false -> rest <> "" ->
  from_version_spec_string (sch ++ ":" ++ rest)
  = from_scheme_version_spec_string sch rest.
Proof.
  intros Hsch Hin Hrest. unfold from_version_spec_string, str_partition.
  rewrite (find_sep_colon_app sch rest Hin).
  apply String.eqb_neq in Hsch, Hrest. rewrite Hsch, Hrest. reflexivity.
Qed.

(** X9: a specifier parsed from a string has a non-empty scheme without
    [":"] and at least one range, and the string is that scheme, a [":"]
    and a non-empty remainder. *)
Theorem parsed_specifier_shape (s : string) (vs : VersionSpecifier) :
  from_version_spec_string s = Ok vs ->
  scheme vs <> ""
  /\ str_in ":" (scheme vs) = false
  /\ ranges vs <> []
  /\ exists rest, rest <> "" /\ s = scheme vs ++ ":" ++ rest.
Proof.
  unfold from_version_spec_string, str_partition.
  destruct (find_sep ":" s) as [[before after]|] eqn:Hfind.
  - destruct (String.eqb before "") eqn:Hb; [discriminate|].
    destruct (String.eqb after "") eqn:Ha; [discriminate|].
    intros Hvs. apply find_sep_colon in Hfind. destruct Hfind as [Hin Hs].
    apply from_scheme_Ok in Hvs. destruct Hvs as [chunks [HF Hvs]].
    pose proof (chunks_length before _ chunks HF) as Hlen.
    subst vs. cbn [scheme ranges].
    apply String.eqb_neq in Hb, Ha.
    split; [exact Hb|]. split; [exact Hin|]. split.
    + intros Hnil. rewrite Hnil in Hlen. cbn [List.length] in Hlen.
      pose proof (split_go_nonempty "," (remove_spaces after) 0) as Hne.
      unfold str_split in Hlen.
      destruct (split_go "," 0 (remove_spaces after)); [congruence|].
      cbn [List.length] in Hlen. lia.
    + exists after. split; [exact Ha | exact Hs].
  - destruct (String.eqb s ""); discriminate.
Qed.

End ConstructionMore.

(** ** [split] and [join] undo each other *)

Lemma concat_push_head (sep : string) (c : ascii) (l : list string) :
  l <> [] ->
  String.concat sep (push_head c l) = String c (String.concat sep l).
Proof.
  destruct l as [|p [|q l]]; [congruence | reflexivity | reflexivity].
Qed.

Lemma concat_empty_head (sep : string) (l : list string) :
  l <> [] -> String.concat sep (EmptyString :: l) = sep ++ String.concat sep l.
Proof. destruct l; [congruence | reflexivity]. Qed.

(** Joining the pieces of a string with the one-character separator that
    cut it gives the string back. *)
Lemma join_split_char (c : ascii) (s : string) :
  String.concat (String c "") (str_split (String c "") s) = s.
Proof.
  unfold str_split. induction s as [|d s IH].
  - reflexivity.
  - cbn [split_go startswith String.length Nat.sub].
    rewrite andb_true_r. destruct (Ascii.eqb c d) eqn:Hcd.
    + apply Ascii.eqb_eq in Hcd. subst d.
      rewrite concat_empty_head by apply split_go_nonempty.
      rewrite IH. reflexivity.
    + rewrite concat_push_head by apply split_go_nonempty.
      rewrite IH. reflexivity.
Qed.

Lemma join_split_tilde_le (n : nat) (s : string) :
  String.length s <= n ->
  String.concat "~>" (str_split "~>" s) = s.
Proof.
  revert s. induction n as [|n IH]; intros s Hlen.
  - destruct s; [reflexivity | simpl in Hlen; lia].
  - destruct s as [|c s']; [reflexivity|].
    destruct (startswith "~>" (String c s')) eqn:Hsw.
    + apply startswith_tilde in Hsw. destruct Hsw as [rest Hrest].
      rewrite Hrest, split_tilde_match.
      rewrite concat_empty_head by apply split_go_nonempty.
      rewrite IH; [reflexivity|].
      inversion Hrest. subst. simpl in Hlen. lia.
    + rewrite (split_step _ _ _ Hsw).
      rewrite concat_push_head by apply split_go_nonempty.
      rewrite IH; [reflexivity|]. simpl in Hlen. lia.
Qed.

Lemma join_split_tilde (s : string) :
  String.concat "~>" (str_split "~>" s) = s.
Proof. apply (join_split_tilde_le (String.length s)). lia. Qed.

(** ** The upper bound by case *)

Lemma find_pessimistic_upper_bound_raise (s : string) (e : exn) :
  Semver.parse s = Raise e -> find_pessimistic_upper_bound s = Raise e.
Proof.
  intros Hparse. unfold find_pessimistic_upper_bound. rewrite Hparse.
  reflexivity.
Qed.

(** X10: on a version with a patch other than 0 and no pre-release the
    upper bound is the next minor version: the minor number plus one and a
    patch of 0, whatever the build. *)
Theorem upper_bound_next_minor (s : string) (v : Semver.Version) :
  Semver.parse s = Ok v ->
  Semver.patch v <> 0%N ->
  Semver.prerelease v = None ->
  find_pessimistic_upper_bound s
  = Ok (Some (Semver.str_of_int (Semver.major v) ++ "."
              ++ Semver.str_of_int (Semver.minor v + 1) ++ ".0")).
Proof.
  intros Hparse Hpatch Hpre.
  rewrite (find_pessimistic_upper_bound_parsed s v Hparse).
  apply N.eqb_neq in Hpatch. rewrite Hpatch, Hpre. reflexivity.
Qed.

Lemma append_empty (s : string) : s ++ "" = s.
Proof. induction s as [|c s IH]; simpl; [reflexivity | rewrite IH; reflexivity]. Qed.

(** X11: on a version with a patch other than 0, a pre-release and no
    build the upper bound is the next patch version, without the
    pre-release. *)
Theorem upper_bound_next_patch (s : string) (v : Semver.Version)
    (pre : string) :
  Semver.parse s = Ok v ->
  Semver.patch v <> 0%N ->
  Semver.prerelease v = Some pre -> pre <> "" ->
  Semver.build v = None ->
  find_pessimistic_upper_bound s
  = Ok (Some (Semver.str_of_int (Semver.major v) ++ "."
              ++ Semver.str_of_int (Semver.minor v) ++ "."
              ++ Semver.str_of_int (Semver.patch v + 1))).
Proof.
  intros Hparse Hpatch Hpre Hne Hbuild.
  rewrite (find_pessimistic_upper_bound_parsed s v Hparse).
  apply N.eqb_neq in Hpatch. apply String.eqb_neq in Hne.
  rewrite Hpatch, Hpre, Hbuild. cbn [Semver.is_empty]. rewrite Hne.
  unfold Semver.to_str, Semver.bump_patch.
  cbn [Semver.major Semver.minor Semver.patch Semver.prerelease Semver.build].
  rewrite !append_empty. reflexivity.
Qed.

Lemma string_compare_refl (s : string) : String.compare s s = Eq.
Proof.
  pose proof (String.compare_antisym s s) as Hanti.
  destruct (String.compare s s); [reflexivity | discriminate | discriminate].
Qed.

Lemma cmp_parts_refl (xs : list object) : Semver.cmp_parts xs xs = Eq.
Proof.
  induction xs as [|x xs IH]; [reflexivity|].
  cbn [Semver.cmp_parts].
  assert (Hx : Semver.cmp_prerelease_tag x x = Eq).
  { destruct x as [n|t|]; cbn [Semver.cmp_prerelease_tag].
    - apply N.compare_refl.
    - apply string_compare_refl.
    - reflexivity. }
  rewrite Hx. exact IH.
Qed.

(** The build metadata takes no part in the ordering. *)
Lemma compare_ignores_build (ma mi pa : N) (pre b1 b2 : option string) :
  Semver.compare (Semver.mkVersion ma mi pa pre b1)
                 (Semver.mkVersion ma mi pa pre b2) = Eq.
Proof.
  unfold Semver.compare.
  cbn [Semver.major Semver.minor Semver.patch Semver.prerelease].
  rewrite !N.compare_refl. unfold Semver.nat_cmp.
  rewrite cmp_parts_refl, Nat.compare_refl. reflexivity.
Qed.

Lemma append_assoc (a b c : string) : (a ++ b) ++ c = a ++ b ++ c.
Proof.
  induction a as [|x a IH]; [reflexivity|].
  cbn [append]. rewrite IH. reflexivity.
Qed.

(** X12: on a version with a patch of 0 the upper bound is the version
    itself with bumped build metadata: the same numbers and pre-release,
    and as metadata the increment of the metadata given, ["build.1"] when
    none is given.  It ranks neither above nor below the version given;
    for a version without metadata it is the text of the version followed
    by ["+build.1"]. *)
Theorem upper_bound_of_patch_zero (s : string) (v : Semver.Version) :
  Semver.parse s = Ok v ->
  Semver.patch v = 0%N ->
  let metadata := match Semver.build v with
                  | Some b => Semver.increment_string b
                  | None => "build.1"
                  end in
  let bound := Semver.mkVersion (Semver.major v) (Semver.minor v) 0
                 (Semver.prerelease v) (Some metadata) in
  find_pessimistic_upper_bound s = Ok (Some (Semver.to_str bound))
  /\ Semver.compare bound v = Eq
  /\ (Semver.build v = None ->
      find_pessimistic_upper_bound s
      = Ok (Some (Semver.to_str v ++ "+build.1"))).
Proof.
  intros Hparse Hpatch metadata bound.
  rewrite (find_pessimistic_upper_bound_parsed s v Hparse).
  rewrite Hpatch. cbn [N.eqb].
  assert (Hbump : Semver.bump_build v = bound).
  { unfold Semver.bump_build, bound, metadata. rewrite Hpatch.
    destruct (Semver.build v); reflexivity. }
  rewrite Hbump. split; [reflexivity|]. split.
  - destruct v as [ma mi pa pre bld].
    cbn [Semver.major Semver.minor Semver.patch Semver.prerelease] in *.
    subst pa. apply compare_ignores_build.
  - intros Hbuild. do 2 f_equal. unfold bound, metadata. rewrite Hbuild.
    unfold Semver.to_str.
    cbn [Semver.major Semver.minor Semver.patch Semver.prerelease
         Semver.build String.eqb].
    rewrite Hpatch, Hbuild, append_empty, !append_assoc. reflexivity.
Qed.

(** X13: the three ways the computation of the upper bound ends: it
    returns a version string exactly when the string parses and its patch
    is 0 or it lacks a pre-release or a build; it ends in [IndexError]
    exactly when the string parses with a patch other than 0, a
    pre-release and a build; and it passes on the exception of the parser
    when the string does not parse. *)
Theorem upper_bound_outcomes (s : string) :
  ((exists bound, find_pessimistic_upper_bound s = Ok (Some bound))
   <-> exists v, Semver.parse s = Ok v
                 /\ (Semver.patch v = 0%N
                     \/ Semver.is_empty (Semver.prerelease v) = true
                     \/ Semver.is_empty (Semver.build v) = true))
  /\ (find_pessimistic_upper_bound s
      = Raise (IndexError "tuple index out of range")
      <-> exists v, Semver.parse s = Ok v
                    /\ Semver.patch v <> 0%N
                    /\ Semver.is_empty (Semver.prerelease v) = false
                    /\ Semver.is_empty (Semver.build v) = false)
  /\ (forall e, Semver.parse s = Raise e ->
                find_pessimistic_upper_bound s = Raise e).
Proof.
  split; [|split].
  - destruct (Semver.parse s) as [v|e] eqn:Hparse.
    + rewrite (find_pessimistic_upper_bound_parsed s v Hparse).
      destruct (N.eqb (Semver.patch v) 0) eqn:Hpatch.
      { apply N.eqb_eq in Hpatch. split.
        - intros _. exists v. split; [reflexivity | left; exact Hpatch].
        - intros _. eexists. reflexivity. }
      apply N.eqb_neq in Hpatch.
      destruct (Semver.is_empty (Semver.prerelease v)) eqn:Hpre.
      { split.
        - intros _. exists v. split; [reflexivity | right; left; exact Hpre].
        - intros _. eexists. reflexivity. }
      destruct (Semver.is_empty (Semver.build v)) eqn:Hbuild.
      { split.
        - intros _. exists v.
          split; [reflexivity | right; right; exact Hbuild].
        - intros _. eexists. reflexivity. }
      split.
      * intros [bound Hbound]. discriminate Hbound.
      * intros [w [Hw Hcases]]. inversion Hw. subst w.
        destruct Hcases as [H|[H|H]]; congruence.
    + rewrite (find_pessimistic_upper_bound_raise s e Hparse). split.
      * intros [bound Hbound]. discriminate Hbound.
      * intros [w [Hw _]]. discriminate Hw.
  - destruct (Semver.parse s) as [v|e] eqn:Hparse.
    + rewrite (find_pessimistic_upper_bound_parsed s v Hparse).
      destruct (N.eqb (Semver.patch v) 0) eqn:Hpatch.
      { apply N.eqb_eq in Hpatch. split; [discriminate|].
        intros [w [Hw [Hne _]]]. inversion Hw. subst w. contradiction. }
      apply N.eqb_neq in Hpatch.
      destruct (Semver.is_empty (Semver.prerelease v)) eqn:Hpre.
      { split; [discriminate|].
        intros [w [Hw [_ [Hf _]]]]. inversion Hw. subst w. congruence. }
      destruct (Semver.is_empty (Semver.build v)) eqn:Hbuild.
      { split; [discriminate|].
        intros [w [Hw [_ [_ Hf]]]]. inversion Hw. subst w. congruence. }
      split.
      * intros _. exists v. repeat split; assumption.
      * intros _. reflexivity.
    + rewrite (find_pessimistic_upper_bound_raise s e Hparse). split.
      * intros Heq. unfold Semver.parse in Hparse.
        destruct (Semver.match_regex s) as [[[[[ma mi] pa] pre] bld]|];
          [discriminate|].
        inversion Hparse. subst e. discriminate Heq.
      * intros [w [Hw _]]. discriminate Hw.
  - apply find_pessimistic_upper_bound_raise.
Qed.

(** ** The characters of a version string *)

Lemma str_all_app (p : ascii -> bool) (a b : string) :
  Semver.str_all p (a ++ b) = Semver.str_all p a && Semver.str_all p b.
Proof.
  induction a as [|c a IH]; [reflexivity|].
  cbn [append Semver.str_all]. rewrite IH, andb_assoc. reflexivity.
Qed.

Lemma str_all_impl (p q : ascii -> bool) (s : string) :
  (forall c, p c = true -> q c = true) ->
  Semver.str_all p s = true -> Semver.str_all q s = true.
Proof.
  intros Hpq. induction s as [|c s IH]; [reflexivity|].
  cbn [Semver.str_all]. intros Hs. apply andb_prop in Hs.
  destruct Hs as [Hc Hs]. rewrite (Hpq c Hc), (IH Hs). reflexivity.
Qed.

Lemma digit_semver_char (c : ascii) :
  Semver.is_digit c = true -> semver_char c = true.
Proof.
  intros Hc. unfold semver_char, Semver.is_ident_char. rewrite Hc.
  reflexivity.
Qed.

Lemma ident_semver_char (c : ascii) :
  Semver.is_ident_char c = true -> semver_char c = true.
Proof. intros Hc. unfold semver_char. rewrite Hc. reflexivity. Qed.

Lemma concat_dot_chars (parts : list string) :
  forallb (Semver.str_all semver_char) parts = true ->
  Semver.str_all semver_char (String.concat "." parts) = true.
Proof.
  induction parts as [|x [|y parts] IH]; cbn [forallb String.concat].
  - reflexivity.
  - rewrite andb_true_r. intros Hx. exact Hx.
  - intros Hxs. apply andb_prop in Hxs. destruct Hxs as [Hx Hrest].
    rewrite !str_all_app, Hx. cbn [Semver.str_all andb].
    change (semver_char ".") with true. cbn [andb].
    apply IH. exact Hrest.
Qed.

Lemma forallb_impl {A : Type} (p q : A -> bool) (l : list A) :
  (forall x, p x = true -> q x = true) ->
  forallb p l = true -> forallb q l = true.
Proof.
  intros Hpq. induction l as [|x l IH]; [reflexivity|].
  cbn [forallb]. intros Hl. apply andb_prop in Hl.
  destruct Hl as [Hx Hl]. rewrite (Hpq x Hx), (IH Hl). reflexivity.
Qed.

Lemma numeric_identifier_chars (x : string) :
  Semver.is_numeric_identifier x = true ->
  Semver.str_all semver_char x = true.
Proof.
  destruct x as [|c x]; [discriminate|].
  unfold Semver.is_numeric_identifier. intros Hx.
  apply andb_prop in Hx. destruct Hx as [Hdigits _].
  apply (str_all_impl _ _ _ digit_semver_char Hdigits).
Qed.

Lemma prerelease_identifier_chars (x : string) :
  Semver.is_prerelease_identifier x = true ->
  Semver.str_all semver_char x = true.
Proof.
  unfold Semver.is_prerelease_identifier. intros Hx.
  apply andb_prop in Hx. destruct Hx as [Hx _].
  apply andb_prop in Hx. destruct Hx as [_ Hx].
  apply (str_all_impl _ _ _ ident_semver_char Hx).
Qed.

Lemma build_identifier_chars (x : string) :
  Semver.is_build_identifier x = true ->
  Semver.str_all semver_char x = true.
Proof.
  unfold Semver.is_build_identifier. intros Hx.
  apply andb_prop in Hx. destruct Hx as [_ Hx].
  apply (str_all_impl _ _ _ ident_semver_char Hx).
Qed.

(** The text on the two sides of the first occurrence of a character. *)
Lemma find_sep_char (c : ascii) (s before after : string) :
  find_sep (String c "") s = Some (before, after) ->
  s = before ++ String c after.
Proof.
  revert before after. induction s as [|d s IH]; intros before after.
  - cbn [find_sep startswith]. discriminate.
  - cbn [find_sep startswith String.length str_drop].
    rewrite andb_true_r. destruct (Ascii.eqb c d) eqn:Hcd.
    + intros Heq. inversion Heq. subst. apply Ascii.eqb_eq in Hcd.
      subst. reflexivity.
    + destruct (find_sep (String c "") s) as [[b a]|] eqn:Hs; [|discriminate].
      intros Heq. inversion Heq. subst.
      rewrite (IH b after eq_refl). reflexivity.
Qed.

Lemma dotted_chars (p : string -> bool) (text : string) :
  (forall x, p x = true -> Semver.str_all semver_char x = true) ->
  forallb p (str_split "." text) = true ->
  Semver.str_all semver_char text = true.
Proof.
  intros Hp Hparts. rewrite <- (join_split_char "." text).
  apply concat_dot_chars. apply (forallb_impl _ _ _ Hp Hparts).
Qed.

(** Every character of a string that the version regex matches, its final
    newline apart, is one of the version characters. *)
Lemma match_regex_chars (s : string)
    (groups : string * string * string * option string * option string) :
  Semver.match_regex s = Some groups ->
  Semver.str_all semver_char (Semver.strip_final_newline s) = true.
Proof.
  unfold Semver.match_regex.
  set (text := Semver.strip_final_newline s).
  assert (Hcore : forall core pre bld,
    match str_split "." core with
    | [ma; mi; pa] =>
        if Semver.is_numeric_identifier ma && Semver.is_numeric_identifier mi
           && Semver.is_numeric_identifier pa
           && match pre with
              | Some p =>
                  forallb Semver.is_prerelease_identifier (str_split "." p)
              | None => true
              end
           && match bld with
              | Some b => forallb Semver.is_build_identifier (str_split "." b)
              | None => true
              end
        then Some (ma, mi, pa, pre, bld)
        else None
    | _ => None
    end = Some groups ->
    Semver.str_all semver_char core = true
    /\ match pre with
       | Some p => Semver.str_all semver_char p = true
       | None => True
       end
    /\ match bld with
       | Some b => Semver.str_all semver_char b = true
       | None => True
       end).
  { intros core pre bld Hm.
    destruct (str_split "." core) as [|ma [|mi [|pa [|x l]]]] eqn:Hsplit;
      try discriminate Hm.
    match type of Hm with
    | (if ?c then _ else _) = _ => destruct c eqn:Hcond
    end; [|discriminate Hm].
    apply andb_prop in Hcond. destruct Hcond as [Hcond Hbld].
    apply andb_prop in Hcond. destruct Hcond as [Hcond Hpre].
    apply andb_prop in Hcond. destruct Hcond as [Hcond Hpa].
    apply andb_prop in Hcond. destruct Hcond as [Hma Hmi].
    split; [|split].
    - rewrite <- (join_split_char "." core), Hsplit.
      apply concat_dot_chars. cbn [forallb].
      rewrite (numeric_identifier_chars _ Hma),
              (numeric_identifier_chars _ Hmi),
              (numeric_identifier_chars _ Hpa).
      reflexivity.
    - destruct pre as [p|]; [|exact I].
      apply (dotted_chars _ _ prerelease_identifier_chars Hpre).
    - destruct bld as [b|]; [|exact I].
      apply (dotted_chars _ _ build_identifier_chars Hbld). }
  destruct (find_sep "+" text) as [[head b]|] eqn:Hplus.
  - apply find_sep_char in Hplus.
    destruct (find_sep "-" head) as [[core p]|] eqn:Hminus.
    + apply find_sep_char in Hminus. intros Hm.
      destruct (Hcore core (Some p) (Some b) Hm) as [H1 [H2 H3]].
      rewrite Hplus, Hminus, !str_all_app.
      cbn [Semver.str_all]. rewrite H1, H2, H3. reflexivity.
    + intros Hm.
      destruct (Hcore head None (Some b) Hm) as [H1 [_ H3]].
      rewrite Hplus, !str_all_app.
      cbn [Semver.str_all]. rewrite H1, H3. reflexivity.
  - destruct (find_sep "-" text) as [[core p]|] eqn:Hminus.
    + apply find_sep_char in Hminus. intros Hm.
      destruct (Hcore core (Some p) None Hm) as [H1 [H2 _]].
      rewrite Hminus, !str_all_app.
      cbn [Semver.str_all]. rewrite H1, H2. reflexivity.
    + intros Hm.
      destruct (Hcore text None None Hm) as [H1 _]. exact H1.
Qed.

Lemma strip_final_newline_cases (s : string) :
  s = Semver.strip_final_newline s
  \/ s = Semver.strip_final_newline s ++ String "010" "".
Proof.
  induction s as [|c s IH]; [left; reflexivity|].
  cbn [Semver.strip_final_newline].
  destruct (Ascii.eqb c "010" && String.eqb s "") eqn:Hnl.
  - apply andb_prop in Hnl. destruct Hnl as [Hc Hs].
    apply Ascii.eqb_eq in Hc. apply String.eqb_eq in Hs. subst.
    right. reflexivity.
  - destruct IH as [IH|IH].
    + left. rewrite <- IH. reflexivity.
    + right. cbn [append]. rewrite <- IH. reflexivity.
Qed.

Lemma parsed_chars (s : string) (v : Semver.Version) :
  Semver.parse s = Ok v ->
  Semver.str_all semver_char_or_newline s = true.
Proof.
  unfold Semver.parse.
  destruct (Semver.match_regex s) as [groups|] eqn:Hm;
    [|discriminate].
  intros _. apply match_regex_chars in Hm.
  assert (Hweak : Semver.str_all semver_char_or_newline
                    (Semver.strip_final_newline s) = true).
  { apply (str_all_impl semver_char); [|exact Hm].
    intros c Hc. unfold semver_char_or_newline. rewrite Hc. reflexivity. }
  destruct (strip_final_newline_cases s) as [Hs|Hs]; rewrite Hs.
  - exact Hweak.
  - rewrite str_all_app, Hweak. reflexivity.
Qed.

(** A string made of characters of a class holds no text that starts with
    a character outside the class. *)
Lemma str_all_not_in (q : ascii -> bool) (c : ascii) (rest s : string) :
  q c = false ->
  Semver.str_all q s = true ->
  str_in (String c rest) s = false.
Proof.
  intros Hc. induction s as [|d s IH]; [reflexivity|].
  cbn [Semver.str_all str_in startswith]. intros Hs.
  apply andb_prop in Hs. destruct Hs as [Hd Hs].
  destruct (Ascii.eqb c d) eqn:Hcd.
  - apply Ascii.eqb_eq in Hcd. subst d. congruence.
  - cbn [andb]. apply IH. exact Hs.
Qed.

(** A string that [Version.parse] accepts has no ["~>"] and no blank. *)
Lemma parsed_without_token (s : string) (v : Semver.Version) :
  Semver.parse s = Ok v -> str_in "~>" s = false.
Proof.
  intros Hparse.
  apply (str_all_not_in semver_char_or_newline "~" ">" s eq_refl).
  apply (parsed_chars s v Hparse).
Qed.

Lemma blank_not_parsed (s : string) :
  str_in " " s = true ->
  Semver.parse s = Raise (ValueError (s ++ " is not valid SemVer string")).
Proof.
  intros Hblank. destruct (Semver.parse s) as [v|e] eqn:Hparse.
  - pose proof (parsed_chars s v Hparse) as Hchars.
    rewrite (str_all_not_in semver_char_or_newline " " "" s eq_refl Hchars)
      in Hblank.
    discriminate Hblank.
  - unfold Semver.parse in Hparse.
    destruct (Semver.match_regex s) as [[[[[ma mi] pa] pre] bld]|];
      [discriminate|].
    symmetry. exact Hparse.
Qed.

(** ** The pessimistic expansion in general *)

Section PessimisticMore.

Context `{B : VersionBackend}.

Lemma split_without_token (s : string) :
  str_in "~>" s = false -> str_split "~>" s = [s].
Proof.
  intros Hin. apply str_in_occurrences in Hin.
  pose proof (split_length_occurrences s) as Hlen. rewrite Hin in Hlen.
  pose proof (join_split_tilde s) as Hjoin.
  destruct (str_split "~>" s) as [|x [|y l]]; try discriminate Hlen.
  cbn [String.concat] in Hjoin. subst x. reflexivity.
Qed.

(** X14: for a version X.Y.Z with Z other than 0 and no pre-release, and
    any text without the token before ["~>"], the expansion builds the
    range of [">="] and the version as written, then the range of ["<"]
    and the next minor version X.(Y+1).0, both under [semver]. *)
Theorem expansion_to_next_minor (P version : string) (v : Semver.Version) :
  str_in "~>" P = false ->
  Semver.parse version = Ok v ->
  Semver.patch v <> 0%N ->
  Semver.prerelease v = None ->
  normalized_pessimistic_ranges (P ++ "~>" ++ version)
  = (lower <- VersionRange_init (">=" ++ version) "semver" ;;
     upper <- VersionRange_init
                ("<" ++ Semver.str_of_int (Semver.major v) ++ "."
                 ++ Semver.str_of_int (Semver.minor v + 1) ++ ".0")
                "semver" ;;
     Ok (lower, upper)).
Proof.
  intros HP Hparse Hpatch Hpre.
  pose proof (split_prefix P version HP) as Hsplit.
  rewrite (split_without_token version (parsed_without_token _ _ Hparse))
    in Hsplit.
  rewrite (normalized_two_pieces _ _ _ Hsplit).
  rewrite (find_pessimistic_upper_bound_parsed version v Hparse).
  apply N.eqb_neq in Hpatch. rewrite Hpatch, Hpre. reflexivity.
Qed.

(** X15: when the expansion returns a pair, its input is some text, one
    ["~>"] and a version that [semver] parses; the first range was built
    from [">="] and that version, the second from ["<"] and its upper
    bound. *)
Theorem expansion_inversion (s : string) (lower upper : VersionRange) :
  normalized_pessimistic_ranges s = Ok (lower, upper) ->
  exists before version bound,
    s = before ++ "~>" ++ version
    /\ occurrences "~>" s = 1
    /\ (exists v, Semver.parse version = Ok v)
    /\ find_pessimistic_upper_bound version = Ok (Some bound)
    /\ VersionRange_init (">=" ++ version) "semver" = Ok lower
    /\ VersionRange_init ("<" ++ bound) "semver" = Ok upper.
Proof.
  intros Hn.
  pose proof (split_length_occurrences s) as Hlen.
  pose proof (join_split_tilde s) as Hjoin.
  destruct (str_split "~>" s) as [|before [|version [|x l]]] eqn:Hsplit;
    try (rewrite normalized_not_two_pieces in Hn;
         [discriminate Hn | rewrite Hsplit; cbn [List.length]; lia]).
  rewrite (normalized_two_pieces _ _ _ Hsplit) in Hn.
  apply bind_Ok in Hn. destruct Hn as [ub [Hub Hn]].
  apply bind_Ok in Hn. destruct Hn as [lo [Hlo Hn]].
  apply bind_Ok in Hn. destruct Hn as [hi [Hhi Hn]].
  inversion Hn. subst lo hi.
  destruct ub as [bound|];
    [|exfalso; exact (find_pessimistic_upper_bound_not_None _ Hub)].
  exists before, version, bound.
  split; [symmetry; exact Hjoin|].
  split; [cbn [List.length] in Hlen; lia|].
  split.
  - destruct (Semver.parse version) as [v|e] eqn:Hparse.
    + exists v. reflexivity.
    + rewrite (find_pessimistic_upper_bound_raise _ _ Hparse) in Hub.
      discriminate Hub.
  - split; [exact Hub|]. split; assumption.
Qed.

(** X16: the expansion does not take blanks out of its input, the result
    of its call of [remove_spaces] being dropped: a version text with a
    blank after the token is given to the parser as it is, and the call
    ends in the parser's [ValueError]. *)
Theorem expansion_keeps_blanks (P version : string) :
  str_in "~>" P = false ->
  str_in "~>" version = false ->
  str_in " " version = true ->
  normalized_pessimistic_ranges (P ++ "~>" ++ version)
  = Raise (ValueError (version ++ " is not valid SemVer string")).
Proof.
  intros HP Hversion Hblank.
  pose proof (split_prefix P version HP) as Hsplit.
  rewrite (split_without_token version Hversion) in Hsplit.
  rewrite (normalized_two_pieces _ _ _ Hsplit).
  unfold find_pessimistic_upper_bound.
  rewrite (blank_not_parsed version Hblank). reflexivity.
Qed.

End PessimisticMore.

(** ** Rendering *)

Section Rendering.

Context `{B : VersionBackend}.

Lemma join_items_position (class_name : string) (position : N)
    (texts : list string) (rest : list (option string)) :
  join_items class_name position (map Some texts ++ None :: rest)%list
  = Raise (TypeError
      ("sequence item "
       ++ NilZero.string_of_uint
            (N.to_uint (position + N.of_nat (List.length texts)))
       ++ ": expected str instance, " ++ class_name ++ " found")).
Proof.
  revert position. induction texts as [|t texts IH]; intros position.
  - cbn [map app join_items List.length N.of_nat].
    rewrite N.add_0_r. reflexivity.
  - cbn [map app join_items]. rewrite IH. cbn [bind].
    replace (position + 1 + N.of_nat (List.length texts))%N
      with (position + N.of_nat (List.length (t :: texts)))%N
      by (cbn [List.length]; lia).
    reflexivity.
Qed.

(** X18: when a stored range is no string, and the ranges before it are,
    the rendering ends in the [TypeError] of [join], whose message gives
    the place of that range in the list. *)
Theorem rendering_refuses_objects (self : VersionSpecifier)
    (pre : list VersionRange) (r : VersionRange) (post : list VersionRange)
    (texts : list string) :
  ranges self = (pre ++ r :: post)%list ->
  map VersionRange_as_str pre = map Some texts ->
  VersionRange_as_str r = None ->
  __str__ self
  = Raise (TypeError
      ("sequence item "
       ++ Semver.str_of_int (N.of_nat (List.length pre))
       ++ ": expected str instance, VersionRange found")).
Proof.
  intros Hranges Hpre Hr. unfold __str__, str_join.
  rewrite Hranges, map_app. cbn [map]. rewrite Hpre, Hr.
  rewrite join_items_position. cbn [bind].
  rewrite <- (length_map VersionRange_as_str pre), Hpre, length_map.
  reflexivity.
Qed.

End Rendering.

(** ** The further properties at concrete inputs *)

(** [contains_does_not_short_circuit]: the first range answers false on
    ["semver:3.0.0"], the second is of another scheme and raises. *)
Lemma contains_does_not_short_circuit_witness :
  let lt := SemverBackend.mkRange "semver" SemverBackend.Less
              (Semver.mkVersion 2 0 0 None None) in
  let other := SemverBackend.mkRange "pypi" SemverBackend.Less
                 (Semver.mkVersion 9 0 0 None None) in
  @VersionRange_contains TaggedBackend.backend lt
    (TaggedBackend.mkTagged "semver" (Semver.mkVersion 3 0 0 None None))
  = Ok false
  /\ @__contains__ TaggedBackend.backend
       (mkVersionSpecifier TaggedBackend.backend "semver" [lt; other])
       (version_str "semver:3.0.0")
     = Raise (ValueError "cannot compare semver with pypi").
Proof.
  intros lt other. split; [reflexivity|].
  apply (@contains_does_not_short_circuit TaggedBackend.backend
           (mkVersionSpecifier TaggedBackend.backend "semver" [lt; other])
           (version_str "semver:3.0.0")
           (TaggedBackend.mkTagged "semver" (Semver.mkVersion 3 0 0 None None))
           [lt] other []).
  - reflexivity.
  - reflexivity.
  - constructor; [exists false; reflexivity | constructor].
  - reflexivity.
Defined.

(** [contains_permutation] on two ranges in their two orders. *)
Lemma contains_permutation_witness :
  let ge := SemverBackend.mkRange "semver" SemverBackend.GreaterEqual
              (Semver.mkVersion 1 0 0 None None) in
  let lt := SemverBackend.mkRange "semver" SemverBackend.Less
              (Semver.mkVersion 2 0 0 None None) in
  @__contains__ SemverBackend.backend
    (mkVersionSpecifier SemverBackend.backend "semver" [lt; ge])
    (version_str "2.5.0") = Ok false.
Proof.
  intros ge lt.
  apply (@contains_permutation SemverBackend.backend
           (mkVersionSpecifier SemverBackend.backend "semver" [ge; lt])
           (mkVersionSpecifier SemverBackend.backend "semver" [lt; ge])
           (version_str "2.5.0") false).
  - apply perm_swap.
  - reflexivity.
Defined.

(** [first_failure_ends_construction]: the second of three expressions is
    no version. *)
Lemma first_failure_ends_construction_witness :
  @from_scheme_version_spec_string SemverBackend.backend
    "semver" ">=1.0.0, <two, <3.0.0"
  = Raise (ValueError "two is not valid SemVer string").
Proof.
  apply (@first_failure_ends_construction SemverBackend.backend
           "semver" ">=1.0.0, <two, <3.0.0" [">=1.0.0"] "<two" ["<3.0.0"]).
  - reflexivity.
  - constructor; [eexists; reflexivity | constructor].
  - reflexivity.
Defined.

(** [other_scheme_ranges]: under [pypi] a specifier of two ranges is
    built, and an expression with the token goes to [VersionRange] as it
    is. *)
Lemma other_scheme_ranges_witness :
  let ge := SemverBackend.mkRange "pypi" SemverBackend.GreaterEqual
              (Semver.mkVersion 1 0 0 None None) in
  let lt := SemverBackend.mkRange "pypi" SemverBackend.Less
              (Semver.mkVersion 2 0 0 None None) in
  @from_scheme_version_spec_string TaggedBackend.backend
    "pypi" ">=1.0.0,<2.0.0"
  = Ok (mkVersionSpecifier TaggedBackend.backend "pypi" [ge; lt])
  /\ @from_scheme_version_spec_string TaggedBackend.backend "pypi" "~>1.0.1"
     = Raise (ValueError "~>1.0.1 is not valid SemVer string").
Proof.
  intros ge lt. split; [|reflexivity].
  apply (proj2 (@other_scheme_ranges TaggedBackend.backend
                  "pypi" ">=1.0.0,<2.0.0"
                  (mkVersionSpecifier TaggedBackend.backend "pypi" [ge; lt])
                  ltac:(discriminate))).
  split; [reflexivity|].
  constructor; [reflexivity|]. constructor; [reflexivity | constructor].
Defined.

(** [constructed_specifier_bounds]: two expressions, three ranges. *)
Lemma constructed_specifier_bounds_witness :
  exists vs,
    @from_scheme_version_spec_string SemverBackend.backend
      "semver" "~>2.0.8,<2.0.9" = Ok vs
    /\ @scheme SemverBackend.backend vs = "semver"
    /\ 2 <= List.length (@ranges SemverBackend.backend vs) <= 4.
Proof.
  destruct (@from_scheme_version_spec_string SemverBackend.backend
              "semver" "~>2.0.8,<2.0.9") as [vs|e] eqn:Hvs;
    [|discriminate Hvs].
  exists vs. split; [reflexivity|].
  destruct (@constructed_specifier_bounds SemverBackend.backend
              "semver" "~>2.0.8,<2.0.9" vs Hvs) as [Hscheme [_ Hlen]].
  split; [exact Hscheme | exact Hlen].
Defined.

(** [parse_scheme_and_rest]: the rest holds a second [":"]. *)
Lemma parse_scheme_and_rest_witness :
  @from_version_spec_string SemverBackend.backend "semver:1.0.0:2"
  = @from_scheme_version_spec_string SemverBackend.backend "semver" "1.0.0:2".
Proof.
  apply (@parse_scheme_and_rest SemverBackend.backend "semver" "1.0.0:2").
  - discriminate.
  - reflexivity.
  - discriminate.
Defined.

(** [parsed_specifier_shape] on ["semver:>=1.0.0"]. *)
Lemma parsed_specifier_shape_witness :
  exists vs,
    @from_version_spec_string SemverBackend.backend "semver:>=1.0.0" = Ok vs
    /\ @scheme SemverBackend.backend vs <> ""
    /\ @ranges SemverBackend.backend vs <> [].
Proof.
  destruct (@from_version_spec_string SemverBackend.backend "semver:>=1.0.0")
    as [vs|e] eqn:Hvs; [|discriminate Hvs].
  exists vs. split; [reflexivity|].
  destruct (@parsed_specifier_shape SemverBackend.backend
              "semver:>=1.0.0" vs Hvs) as [Hscheme [_ [Hranges _]]].
  split; [exact Hscheme | exact Hranges].
Defined.

(** [upper_bound_next_minor] on ["10.9.3+build.7"]. *)
Lemma upper_bound_next_minor_witness :
  find_pessimistic_upper_bound "10.9.3+build.7" = Ok (Some "10.10.0").
Proof.
  apply (upper_bound_next_minor "10.9.3+build.7"
           (Semver.mkVersion 10 9 3 None (Some "build.7"))).
  - reflexivity.
  - discriminate.
  - reflexivity.
Defined.

(** [upper_bound_next_patch] on ["1.4.9-alpha.1"]. *)
Lemma upper_bound_next_patch_witness :
  find_pessimistic_upper_bound "1.4.9-alpha.1" = Ok (Some "1.4.10").
Proof.
  apply (upper_bound_next_patch "1.4.9-alpha.1"
           (Semver.mkVersion 1 4 9 (Some "alpha.1") None) "alpha.1").
  - reflexivity.
  - discriminate.
  - reflexivity.
  - discriminate.
  - reflexivity.
Defined.

(** [upper_bound_of_patch_zero] on ["1.2.0-rc.1"], which has no
    metadata, and on ["1.2.0+build.9"], which has. *)
Lemma upper_bound_of_patch_zero_witness :
  find_pessimistic_upper_bound "1.2.0-rc.1"
  = Ok (Some "1.2.0-rc.1+build.1")
  /\ find_pessimistic_upper_bound "1.2.0+build.9"
     = Ok (Some "1.2.0+build.10").
Proof.
  split.
  - exact (proj2 (proj2 (upper_bound_of_patch_zero "1.2.0-rc.1"
                           (Semver.mkVersion 1 2 0 (Some "rc.1") None)
                           eq_refl eq_refl)) eq_refl).
  - exact (proj1 (upper_bound_of_patch_zero "1.2.0+build.9"
                    (Semver.mkVersion 1 2 0 None (Some "build.9"))
                    eq_refl eq_refl)).
Defined.

(** [expansion_to_next_minor] on ["gem~>3.7.2"]. *)
Lemma expansion_to_next_minor_witness :
  @normalized_pessimistic_ranges SemverBackend.backend "gem~>3.7.2"
  = Ok (SemverBackend.mkRange "semver" SemverBackend.GreaterEqual
          (Semver.mkVersion 3 7 2 None None),
        SemverBackend.mkRange "semver" SemverBackend.Less
          (Semver.mkVersion 3 8 0 None None)).
Proof.
  refine (eq_trans
            (@expansion_to_next_minor SemverBackend.backend "gem" "3.7.2"
               (Semver.mkVersion 3 7 2 None None) eq_refl eq_refl _ eq_refl)
            eq_refl).
  discriminate.
Defined.

(** [expansion_inversion] on ["~>2.0.8"]. *)
Lemma expansion_inversion_witness :
  exists before version bound,
    "~>2.0.8" = before ++ "~>" ++ version
    /\ find_pessimistic_upper_bound version = Ok (Some bound).
Proof.
  destruct (@expansion_inversion SemverBackend.backend "~>2.0.8"
              (SemverBackend.mkRange "semver" SemverBackend.GreaterEqual
                 (Semver.mkVersion 2 0 8 None None))
              (SemverBackend.mkRange "semver" SemverBackend.Less
                 (Semver.mkVersion 2 1 0 None None)) eq_refl)
    as [before [version [bound [Hs [_ [_ [Hbound _]]]]]]].
  exists before, version, bound. split; assumption.
Defined.

(** [expansion_keeps_blanks]: the blank after the token makes the call
    fail, while the constructor, which removes it first, builds the two
    ranges. *)
Lemma expansion_keeps_blanks_witness :
  @normalized_pessimistic_ranges SemverBackend.backend "~> 2.0.8"
  = Raise (ValueError " 2.0.8 is not valid SemVer string")
  /\ exists vs,
       @from_scheme_version_spec_string SemverBackend.backend
         "semver" "~> 2.0.8" = Ok vs.
Proof.
  split.
  - apply (@expansion_keeps_blanks SemverBackend.backend "" " 2.0.8");
      reflexivity.
  - eexists. reflexivity.
Defined.

(** [rendering_refuses_objects]: a specifier of the second backend, whose
    ranges are plain objects. *)
Lemma rendering_refuses_objects_witness :
  exists vs,
    @from_version_spec_string TaggedBackend.backend "semver:>=1.0.0" = Ok vs
    /\ @__str__ TaggedBackend.backend vs
       = Raise (TypeError
           "sequence item 0: expected str instance, VersionRange found").
Proof.
  destruct (@from_version_spec_string TaggedBackend.backend "semver:>=1.0.0")
    as [vs|e] eqn:Hvs; [|discriminate Hvs].
  exists vs. split; [reflexivity|].
  inversion Hvs.
  apply (@rendering_refuses_objects TaggedBackend.backend _ []
           (SemverBackend.mkRange "semver" SemverBackend.GreaterEqual
              (Semver.mkVersion 1 0 0 None None)) [] []);
    reflexivity.
Defined.

(** ** Rendering a constructed specifier *)

Lemma constructed_ranges_nonempty `{B : VersionBackend} (sch value : string)
    (vs : VersionSpecifier) :
  from_scheme_version_spec_string sch value = Ok vs -> ranges vs <> [].
Proof.
  intros Hvs. apply from_scheme_Ok in Hvs.
  destruct Hvs as [chunks [HF ->]]. cbn [ranges].
  pose proof (chunks_length sch _ chunks HF) as Hlen.
  intros Hnil. rewrite Hnil in Hlen. cbn [List.length] in Hlen.
  pose proof (split_go_nonempty "," (remove_spaces value) 0) as Hne.
  unfold str_split in Hlen.
  destruct (split_go "," 0 (remove_spaces value)); [congruence|].
  cbn [List.length] in Hlen. lia.
Qed.

Lemma parsed_ranges_nonempty `{B : VersionBackend} (s : string)
    (vs : VersionSpecifier) :
  from_version_spec_string s = Ok vs -> ranges vs <> [].
Proof.
  rewrite from_version_spec_string_unfold.
  destruct (String.eqb (scheme_of s) ""); [discriminate|].
  destruct (String.eqb (remainder_of s) ""); [discriminate|].
  apply constructed_ranges_nonempty.
Qed.

(** C8: the rendering joins the stored [VersionRange] objects themselves,
    without taking their text: on the specifier parsed from
    ["semver:>=1.0.0,<2.0.0"] it ends in the [TypeError] of [join] and
    returns no string; and so it does on every specifier that either
    constructor returns, whenever the ranges are objects and not
    strings. *)
Theorem rendering_of_constructed_specifier :
  (vs <- @from_version_spec_string SemverBackend.backend
           "semver:>=1.0.0,<2.0.0" ;;
   __str__ vs)
  = Raise (TypeError
      "sequence item 0: expected str instance, VersionRange found")
  /\ forall (B : VersionBackend),
       (forall r : VersionRange, VersionRange_as_str r = None) ->
       forall vs : VersionSpecifier,
         ((exists s, from_version_spec_string s = Ok vs)
          \/ (exists sch value,
                 from_scheme_version_spec_string sch value = Ok vs)) ->
         __str__ vs
         = Raise (TypeError
             "sequence item 0: expected str instance, VersionRange found").
Proof.
  split; [reflexivity|].
  intros B Hobjects vs Hbuilt.
  assert (Hne : ranges vs <> []).
  { destruct Hbuilt as [[s Hs]|[sch [value Hv]]].
    - apply (parsed_ranges_nonempty s vs Hs).
    - apply (constructed_ranges_nonempty sch value vs Hv). }
  unfold __str__, str_join.
  destruct (ranges vs) as [|r rs]; [congruence|].
  cbn [map join_items]. rewrite (Hobjects r). reflexivity.
Qed.
